(** * Amplify hosting construct and Git mirror import job

    A shallow embedding of [src/aws-amplify-hosting.ts] (the [AmplifyHosting]
    and [Repository] constructs) and of the import job the [Repository]
    construct deploys, together with the properties stated about them.

    The constructs only compose resources: running a constructor registers
    constructs in the construct tree and calls methods on them.  The
    embedding keeps that as a state-and-exception monad over the ordered
    list of operations performed on the tree. *)

From Stdlib Require Import Ascii String.
From stdpp Require Import base strings list option gmap.

Open Scope string_scope.
Open Scope list_scope.

(** ** Strings

    A JavaScript string is kept as the sequence of its characters.  The one
    character the constructs look for is ['/'], a single unit in every
    encoding, so splitting and replacing see the same segments. *)

(** [s.replace(/\//g, r)]: every ['/'] of [s] is replaced by [r]. *)
Fixpoint replace_slashes (r s : string) : string :=
  match s with
  | EmptyString => EmptyString
  | String c s' =>
      if Ascii.eqb c "/"%char then r +:+ replace_slashes r s'
      else String c (replace_slashes r s')
  end.

(** [s.split(c)] for a one-character separator [c]: the segments between
    the occurrences of [c]; a string without [c] (the empty one included)
    is its own single segment. *)
Fixpoint split (c : Ascii.ascii) (s : string) : list string :=
  match s with
  | EmptyString => [EmptyString]
  | String a s' =>
      if Ascii.eqb a c then EmptyString :: split c s'
      else match split c s' with
           | seg :: segs => String a seg :: segs
           | [] => [String a EmptyString]
           end
  end.

(** The number of occurrences of the character [c] in [s]. *)
Fixpoint occurrences (c : Ascii.ascii) (s : string) : nat :=
  match s with
  | EmptyString => 0
  | String a s' => (if Ascii.eqb a c then 1 else 0) + occurrences c s'
  end.

(** [s.includes(needle)]. *)
Fixpoint includes (needle s : string) : bool :=
  String.prefix needle s ||
  match s with
  | EmptyString => false
  | String _ s' => includes needle s'
  end.

(** [l.join(sep)]. *)
Definition join (sep : string) (l : list string) : string :=
  String.concat sep l.

(** [s.repeat(k)]. *)
Fixpoint repeat_string (s : string) (k : nat) : string :=
  match k with
  | O => EmptyString
  | S k' => s +:+ repeat_string s k'
  end.

(** ** Construct tree *)

(** A construct is identified by the ids on its path, innermost first: the
    child [id] of [scope] is [id :: scope], the root is [[]]. *)
Abbreviation node_id := (list string).

(** [node.path]: the ids from the root down, joined by ['/']. *)
Definition node_path (n : node_id) : string := join "/" (rev n).

(** The [Construct] base class replaces the path separator in ids. *)
Definition sanitizeId (id : string) : string := replace_slashes "--" id.

Inductive LiveUpdateType := nvm | npm | internal.

Record LiveUpdate := {
  pkg : string;
  type : LiveUpdateType;
  version : string;
}.

(** Strings built at synthesis time are sequences of literal text and of
    values only known at deployment: attributes of constructs
    ([this.app.appId], [this.repositoryCloneUrlGrc], ...), pseudo parameters
    ([cdk.Aws.REGION], ...) and the serialisation of [liveUpdates]. *)
Inductive frag :=
| Lit (s : string)
| Attr (n : node_id) (a : string)
| Aws (p : string)
| JSON_stringify (l : list LiveUpdate).

Abbreviation tstr := (list frag).

(** A [CfnResource]: the construct itself or the [node.defaultChild] of a
    higher-level construct. *)
Inductive cfn_ref :=
| Self (n : node_id)
| DefaultChild (n : node_id).

Definition cfn_owner (r : cfn_ref) : node_id :=
  match r with Self n | DefaultChild n => n end.

(** ** Properties of the constructs instantiated by the source *)

Inductive TimeUnit := Seconds | Minutes.
Record Duration := { amount : N; time_unit : TimeUnit }.

Module cdk.
Module Duration.
Definition minutes (n : N) : Duration := {| amount := n; time_unit := Minutes |}.
Definition toSeconds (d : Duration) : N :=
  match time_unit d with
  | Seconds => amount d
  | Minutes => amount d * 60
  end.
End Duration.
Module Size.
(** Sizes are kept in mebibytes. *)
Definition gibibytes (n : N) : N := (n * 1024)%N.
End Size.
End cdk.

Inductive Runtime := PYTHON_3_9.

Record BundlingOptions := {
  image : Runtime;
  command : list string;
  user : string;
}.

Record AssetCode := {
  asset_path : string;
  bundling : BundlingOptions;
}.

Record FunctionProps := {
  fn_description : string;
  runtime : Runtime;
  code : AssetCode;
  handler : string;
  memorySize : N;
  ephemeralStorageSize : N;
  timeout : Duration;
}.

Record RepositoryProps := { repositoryName : string }.

Record ProviderProps := { onEventHandler : node_id }.

Record CustomResourceProps := {
  resourceType : string;
  serviceToken : tstr;
  properties : list (string * tstr);
}.

Record RoleProps := {
  role_description : string;
  role_path : string;
  assumedBy : string;
}.

(** The object handed to [BuildSpec.fromObjectToYaml]. *)
#[local] Unset Elimination Schemes.
Inductive yaml :=
| YNum (n : N)
| YStr (s : string)
| YArr (l : list yaml)
| YObj (fields : list (string * yaml)).
#[local] Set Elimination Schemes.

Record AppProps := {
  appName : string;
  role : node_id;
  sourceCodeProvider : node_id;
  buildSpec : yaml;
  app_environmentVariables : list (string * string);
}.

Record BranchOptions := {
  branchName : string;
  stage : string;
  autoBuild : bool;
  branch_environmentVariables : list (string * tstr);
}.

Record PolicyStatement := {
  sid : string;
  actions : list string;
  resources : list tstr;
}.

Record PolicyProps := {
  policyName : tstr;
  statements : list PolicyStatement;
}.

Inductive RedirectStatus := NOT_FOUND_REWRITE.

Record CustomRule := {
  rule_source : string;
  rule_target : string;
  rule_status : RedirectStatus;
}.

Inductive resource :=
| PlainConstruct
| CodeCommitRepository (p : RepositoryProps)
| LambdaFunction (p : FunctionProps)
| CrProvider (p : ProviderProps)
| CdkCustomResource (p : CustomResourceProps)
| IamRole (p : RoleProps)
| AmplifyApp (p : AppProps)
| AmplifyBranch (app : node_id) (p : BranchOptions)
| IamPolicy (p : PolicyProps)
| CfnOutput (value : tstr).

(** What running a constructor does to the construct tree, in program
    order. *)
Inductive op :=
| Create (n : node_id) (r : resource)
| Grant (grantee : node_id) (action : string) (on : node_id)
| AddPropertyOverride (target : cfn_ref) (property : string) (value : string)
| AddEnvironment (app : node_id) (name : string) (value : tstr)
| AddCustomRule (app : node_id) (rule : CustomRule)
| AddDependency (dependent : node_id) (dependency : cfn_ref)
| AttachToRole (policy : node_id) (role : node_id).

Abbreviation tree := (list op).

Definition has_node (t : tree) (n : node_id) : bool :=
  existsb (fun o => match o with
                    | Create m _ => bool_decide (m = n)
                    | _ => false
                    end) t.

(** ** The synthesis monad: tree state, JavaScript exceptions

    The tree lists the constructs the source instantiates.  The constructs
    the library classes create inside themselves (such as the ['Resource']
    child of a repository) are not listed, and what a library constructor
    asks of its surroundings beyond a free id (a stack above its scope, an
    asset that can be staged) is not modelled. *)

Inductive outcome (A : Type) :=
| Done (a : A) (t : tree)
| Thrown (msg : string).
Arguments Done {A} a t.
Arguments Thrown {A} msg.

Definition Synth (A : Type) := tree -> outcome A.

Definition ret {A} (a : A) : Synth A := fun t => Done a t.

Definition bind {A B} (m : Synth A) (k : A -> Synth B) : Synth B :=
  fun t => match m t with
           | Done a t' => k a t'
           | Thrown msg => Thrown msg
           end.

Definition emit (o : op) : Synth unit := fun t => Done tt (t ++ [o]).

Declare Scope synth_scope.
Delimit Scope synth_scope with synth.
Notation "x <~ m ;; k" := (bind m (fun x => k))
  (at level 100, m at next level, right associativity) : synth_scope.
Notation "m ;;; k" := (bind m (fun _ => k))
  (at level 100, right associativity) : synth_scope.

(** [new C(scope, id, props)]: the base class registers the construct under
    its scope; it refuses an empty id and an id a sibling already has. *)
Definition construct (scope : node_id) (id : string) (r : resource)
  : Synth node_id :=
  fun t =>
    let n := sanitizeId id :: scope in
    if bool_decide (sanitizeId id = "") then
      Thrown "Only root constructs may have an empty ID"
    else if has_node t n then
      Thrown ("There is already a Construct with name '" +:+ sanitizeId id +:+ "'")
    else Done n (t ++ [Create n r]).

(** ** [class Repository extends codecommit.Repository] *)

Record Provider := { provider_node : node_id; provider_props : ProviderProps }.

(** [provider.serviceToken], resolved at deployment. *)
Definition Provider_serviceToken (p : Provider) : tstr :=
  [Attr (provider_node p) "serviceToken"].

Record Repository := {
  repo_node : node_id;
  repo_props : RepositoryProps;
  importFunction : node_id;
  importProvider : Provider;
}.

(** [this.repositoryCloneUrlGrc], resolved at deployment. *)
Definition repositoryCloneUrlGrc (this : Repository) : tstr :=
  [Attr (repo_node this) "repositoryCloneUrlGrc"].

Record CustomResource := { cr_node : node_id; cr_props : CustomResourceProps }.

Definition dquote : string := String "034"%char EmptyString.

(** The shell line that copies the shared libraries [bin] links against. *)
Definition ldd_copy (bin : string) : string :=
  "ldd " +:+ bin +:+ " | awk 'NF == 4 { system(" +:+ dquote +:+ "cp " +:+ dquote
  +:+ " $3 " +:+ dquote +:+ " /var/task/local/lib/" +:+ dquote +:+ ") }'".

Definition importFunctionProps : FunctionProps := {|
  fn_description := "Copy Git Repository";
  runtime := PYTHON_3_9;
  code := {|
    asset_path := "./src/functions/copy-git-repo";
    bundling := {|
      image := PYTHON_3_9;
      command := [
        "/bin/bash"; "-c"; join "&&" [
          "mkdir -p /var/task/local/{bin,lib}";
          "yum install -y git";
          "cp /usr/bin/git /usr/libexec/git-core/git-remote-https /usr/libexec/git-core/git-remote-http /var/task/local/bin";
          ldd_copy "/usr/bin/git";
          ldd_copy "/usr/libexec/git-core/git-remote-https";
          ldd_copy "/usr/libexec/git-core/git-remote-http";
          "pip install -r requirements.txt -t /var/task";
          "cp -au /asset-input/index.py /var/task";
          "cp -aur /var/task/* /asset-output"
        ]
      ];
      user := "root";
    |};
  |};
  handler := "index.handler";
  memorySize := 2048;
  ephemeralStorageSize := cdk.Size.gibibytes 2;
  timeout := cdk.Duration.minutes 3;
|}.

(** [codecommit.Repository.grantPullPush(grantee)] of the CDK library:
    [grantPull], then the grant of [codecommit:GitPush]. *)
Definition grantPullPush (this grantee : node_id) : Synth unit :=
  (emit (Grant grantee "codecommit:GitPull" this) ;;;
   emit (Grant grantee "codecommit:GitPush" this))%synth.

(** [new Repository(scope, id, props)]. *)
Definition Repository_new (scope : node_id) (id : string)
    (props : RepositoryProps) : Synth Repository :=
  (this <~ construct scope id (CodeCommitRepository props) ;;
   importFunction <~ construct this "ImportFunction"
                       (LambdaFunction importFunctionProps) ;;
   grantPullPush this importFunction ;;;
   let provider_props := {| onEventHandler := importFunction |} in
   importProvider <~ construct this "ImportProvider" (CrProvider provider_props) ;;
   ret {| repo_node := this;
          repo_props := props;
          importFunction := importFunction;
          importProvider := {| provider_node := importProvider;
                               provider_props := provider_props |} |})%synth.

(** The properties of the custom resource of [importFromUrl]. *)
Definition importJobProps (this : Repository)
    (targetBranch sourceRepoUrlHttp sourceBranch : string) : CustomResourceProps := {|
  resourceType := "Custom::RepoImportJob";
  serviceToken := Provider_serviceToken (importProvider this);
  properties := [
    ("SourceRepo", [Lit sourceRepoUrlHttp]);
    ("SourceBranch", [Lit sourceBranch]);
    ("TargetRepo", repositoryCloneUrlGrc this);
    ("TargetBranch", [Lit targetBranch])
  ];
|}.

(** [repository.importFromUrl(targetBranch, sourceRepoUrlHttp, sourceBranch)]. *)
Definition importFromUrl (this : Repository)
    (targetBranch sourceRepoUrlHttp sourceBranch : string)
  : Synth CustomResource :=
  let props := importJobProps this targetBranch sourceRepoUrlHttp sourceBranch in
  (n <~ construct (repo_node this) targetBranch (CdkCustomResource props) ;;
   ret {| cr_node := n; cr_props := props |})%synth.

(** ** [class AmplifyHosting extends Construct] *)

Record AmplifyHostingProps := {
  sourceRepo : string;
  sourceBranch : string;
  appRoot : string;
  environmentVariables : option (list (string * string));
  liveUpdates : list LiveUpdate;
}.

Record AmplifyHosting := {
  hosting_node : node_id;
  hosting_repository : Repository;
  repoImportJob : CustomResource;
  app : node_id;
  prodBranch : node_id;
  prodBranchUrl : tstr;
}.

(** [const outputFileTracingRoot =
       appRoot.split('/').map(x => x = '..').join('/') + '/'] *)
Definition outputFileTracingRoot (appRoot : string) : string :=
  join "/" (map (fun x => "..") (split "/" appRoot)) +:+ "/".

Definition buildSpec_of (appRoot : string) (envKeys : list string) : yaml :=
  YObj [
    ("version", YNum 1);
    ("applications", YArr [YObj [
      ("appRoot", YStr appRoot);
      ("frontend", YObj [
        ("phases", YObj [
          ("preBuild", YObj [("commands", YArr [
            YStr ("env | grep " +:+ join " " (map (fun key => "-e " +:+ key) envKeys)
                  +:+ " >> .env.production");
            YStr "env | grep -e NEXT_PUBLIC_ >> .env.production";
            YStr "npm ci || npm install"])]);
          ("build", YObj [("commands", YArr [
            YStr "npm run build";
            YStr "npm prune --omit=dev"])]);
          ("postBuild", YObj [("commands", YArr [
            YStr ("ln -s " +:+ appRoot +:+ "/server.js .next/standalone/server.js");
            YStr ("cp -r public .next/standalone/" +:+ appRoot +:+ "/public");
            YStr ("cp -r .next/static .next/standalone/" +:+ appRoot +:+ "/.next/static");
            YStr ("cp .env .env.production .next/standalone/" +:+ appRoot);
            YStr ("ln -s /tmp .next/standalone/" +:+ appRoot +:+ "/.next/cache")])])]);
        ("artifacts", YObj [
          ("baseDirectory", YStr ".next");
          ("files", YArr [YStr "**/*"])]);
        ("cache", YObj [("paths", YArr [YStr "node_modules/**/*"])])])]])].

Definition log_arn (suffix : list frag) : tstr :=
  [Lit "arn:"; Aws "PARTITION"; Lit ":logs:"; Aws "REGION"; Lit ":";
   Aws "ACCOUNT_ID"; Lit ":log-group:"] ++ suffix.

Definition amplifySSRLoggingRoleProps : RoleProps := {|
  role_description :=
    "The service role that will be used by AWS Amplify for SSR app logging.";
  role_path := "/service-role/";
  assumedBy := "amplify.amazonaws.com";
|}.

Definition notFoundRewrite : CustomRule := {|
  rule_source := "/<*>";
  rule_target := "/index.html";
  rule_status := NOT_FOUND_REWRITE;
|}.

(** The options of [this.app.addBranch('ProdBranch', ...)]. *)
Definition prodBranchOptions (app : node_id) : BranchOptions := {|
  branchName := "main";
  stage := "PRODUCTION";
  autoBuild := true;
  branch_environmentVariables :=
    [("NEXT_PUBLIC_SITE_URL",
      [Lit "https://main."; Attr app "appId"; Lit ".amplifyapp.com"])];
|}.

Definition amplifySSRLoggingPolicyProps (app : node_id) : PolicyProps := {|
  policyName := [Lit "AmplifySSRLoggingPolicy-"; Attr app "appId"];
  statements := [
    {| sid := "PushLogs";
       actions := ["logs:CreateLogStream"; "logs:PutLogEvents"];
       resources := [log_arn [Lit "/aws/amplify/"; Attr app "appId";
                              Lit ":log-stream:*"]] |};
    {| sid := "CreateLogGroup";
       actions := ["logs:CreateLogGroup"];
       resources := [log_arn [Lit "/aws/amplify/*"]] |};
    {| sid := "DescribeLogGroups";
       actions := ["logs:DescribeLogGroups"];
       resources := [log_arn [Lit "*"]] |}];
|}.

(** [new AmplifyHosting(scope, id, props)]. *)
Definition AmplifyHosting_new (scope : node_id) (id : string)
    (props : AmplifyHostingProps) : Synth AmplifyHosting :=
  (this <~ construct scope id PlainConstruct ;;
   let environmentVariables := default [] (environmentVariables props) in
   repository <~ Repository_new this "Repo"
                   {| repositoryName := replace_slashes "" (node_path this) |} ;;
   repoImportJob <~ importFromUrl repository "main"
                      (sourceRepo props) (sourceBranch props) ;;
   amplifySSRLoggingRole <~ construct this "AmplifySSRLoggingRole"
                              (IamRole amplifySSRLoggingRoleProps) ;;
   let envKeys := map fst environmentVariables in
   let buildSpec := buildSpec_of (appRoot props) envKeys in
   app <~ construct this "App" (AmplifyApp {|
     appName := replace_slashes "" (node_path this);
     role := amplifySSRLoggingRole;
     sourceCodeProvider := repo_node repository;
     buildSpec := buildSpec;
     app_environmentVariables := environmentVariables |}) ;;
   emit (AddPropertyOverride (DefaultChild app) "Platform" "WEB_COMPUTE") ;;;
   emit (AddEnvironment app "NEXT_PRIVATE_OUTPUT_TRACE_ROOT"
           [Lit (outputFileTracingRoot (appRoot props))]) ;;;
   emit (AddEnvironment app "AMPLIFY_MONOREPO_APP_ROOT" [Lit (appRoot props)]) ;;;
   emit (AddEnvironment app "AMPLIFY_DIFF_DEPLOY" [Lit "false"]) ;;;
   emit (AddEnvironment app "_LIVE_UPDATES" [JSON_stringify (liveUpdates props)]) ;;;
   emit (AddCustomRule app notFoundRewrite) ;;;
   prodBranch <~ construct app "ProdBranch"
                   (AmplifyBranch app (prodBranchOptions app)) ;;
   emit (AddPropertyOverride (DefaultChild prodBranch) "Framework" "Next.js - SSR") ;;;
   emit (AddDependency (cr_node repoImportJob) (DefaultChild prodBranch)) ;;;
   amplifySSRLoggingPolicy <~ construct this "AmplifySSRLoggingPolicy"
                                (IamPolicy (amplifySSRLoggingPolicyProps app)) ;;
   emit (AttachToRole amplifySSRLoggingPolicy amplifySSRLoggingRole) ;;;
   let prodBranchUrl :=
     [Lit "https://"; Attr prodBranch "branchName"; Lit ".";
      Attr app "defaultDomain"] in
   _ <~ construct this "Url" (CfnOutput prodBranchUrl) ;;
   ret {| hosting_node := this;
          hosting_repository := repository;
          repoImportJob := repoImportJob;
          app := app;
          prodBranch := prodBranch;
          prodBranchUrl := prodBranchUrl |})%synth.

(** ** The constructions, operation by operation *)

(** The repository [new Repository] returns when it is registered at
    [this], and the operations it performs, in program order. *)
Definition Repository_at (this : node_id) (props : RepositoryProps) : Repository := {|
  repo_node := this;
  repo_props := props;
  importFunction := "ImportFunction" :: this;
  importProvider := {|
    provider_node := "ImportProvider" :: this;
    provider_props := {| onEventHandler := "ImportFunction" :: this |} |};
|}.

Definition Repository_ops (this : node_id) (props : RepositoryProps) : list op :=
  let r := Repository_at this props in
  [Create this (CodeCommitRepository props);
   Create (importFunction r) (LambdaFunction importFunctionProps);
   Grant (importFunction r) "codecommit:GitPull" this;
   Grant (importFunction r) "codecommit:GitPush" this;
   Create (provider_node (importProvider r)) (CrProvider (provider_props (importProvider r)))].

(** The construct [new AmplifyHosting] returns when it is registered at
    [this], and the operations it performs, in program order. *)
Definition AmplifyHosting_at (this : node_id) (props : AmplifyHostingProps)
  : AmplifyHosting :=
  let repository :=
    Repository_at ("Repo" :: this)
      {| repositoryName := replace_slashes "" (node_path this) |} in
  {| hosting_node := this;
     hosting_repository := repository;
     repoImportJob := {|
       cr_node := "main" :: "Repo" :: this;
       cr_props := importJobProps repository "main" (sourceRepo props) (sourceBranch props) |};
     app := "App" :: this;
     prodBranch := "ProdBranch" :: "App" :: this;
     prodBranchUrl := [Lit "https://"; Attr ("ProdBranch" :: "App" :: this) "branchName";
                       Lit "."; Attr ("App" :: this) "defaultDomain"] |}.

Definition AmplifyHosting_ops (this : node_id) (props : AmplifyHostingProps) : list op :=
  let h := AmplifyHosting_at this props in
  let role := "AmplifySSRLoggingRole" :: this in
  let policy := "AmplifySSRLoggingPolicy" :: this in
  let env := default [] (environmentVariables props) in
  [Create this PlainConstruct] ++
  Repository_ops (repo_node (hosting_repository h)) (repo_props (hosting_repository h)) ++
  [Create (cr_node (repoImportJob h)) (CdkCustomResource (cr_props (repoImportJob h)));
   Create role (IamRole amplifySSRLoggingRoleProps);
   Create (app h) (AmplifyApp {|
     appName := replace_slashes "" (node_path this);
     role := role;
     sourceCodeProvider := repo_node (hosting_repository h);
     buildSpec := buildSpec_of (appRoot props) (map fst env);
     app_environmentVariables := env |});
   AddPropertyOverride (DefaultChild (app h)) "Platform" "WEB_COMPUTE";
   AddEnvironment (app h) "NEXT_PRIVATE_OUTPUT_TRACE_ROOT"
     [Lit (outputFileTracingRoot (appRoot props))];
   AddEnvironment (app h) "AMPLIFY_MONOREPO_APP_ROOT" [Lit (appRoot props)];
   AddEnvironment (app h) "AMPLIFY_DIFF_DEPLOY" [Lit "false"];
   AddEnvironment (app h) "_LIVE_UPDATES" [JSON_stringify (liveUpdates props)];
   AddCustomRule (app h) notFoundRewrite;
   Create (prodBranch h) (AmplifyBranch (app h) (prodBranchOptions (app h)));
   AddPropertyOverride (DefaultChild (prodBranch h)) "Framework" "Next.js - SSR";
   AddDependency (cr_node (repoImportJob h)) (DefaultChild (prodBranch h));
   Create policy (IamPolicy (amplifySSRLoggingPolicyProps (app h)));
   AttachToRole policy role;
   Create ("Url" :: this) (CfnOutput (prodBranchUrl h))].

(** ** Reading the construct tree *)

(** The resource registered at [n]; registration refuses a second one. *)
Fixpoint resource_at (t : tree) (n : node_id) : option resource :=
  match t with
  | [] => None
  | Create m r :: t' => if bool_decide (m = n) then Some r else resource_at t' n
  | _ :: t' => resource_at t' n
  end.

(** Nothing is registered at or below [n]: the state of the tree before the
    construct [n] is instantiated. *)
Definition is_new (t : tree) (n : node_id) : bool :=
  forallb (fun o => match o with
                    | Create m _ => negb (bool_decide (n `suffix_of` m))
                    | _ => true
                    end) t.

(** The effect of one operation on [this.environmentVariables] of the app
    [a]: the constructor takes the [environmentVariables] of its props,
    [addEnvironment(name, value)] sets [name], replacing an earlier value. *)
Definition env_step (a : node_id) (env : gmap string tstr) (o : op)
  : gmap string tstr :=
  match o with
  | Create n (AmplifyApp p) =>
      if bool_decide (n = a)
      then foldl (fun e kv => <[kv.1 := [Lit kv.2]]> e) ∅ (app_environmentVariables p)
      else env
  | AddEnvironment n name value =>
      if bool_decide (n = a) then <[name := value]> env else env
  | _ => env
  end.

(** [this.environmentVariables] of the app [a] after the operations of [t]. *)
Definition app_environment (t : tree) (a : node_id) : gmap string tstr :=
  foldl (env_step a) ∅ t.

(** The value of a key of a JavaScript object given by its entries. *)
Fixpoint get {A} (key : string) (obj : list (string * A)) : option A :=
  match obj with
  | [] => None
  | (k, v) :: obj' => if bool_decide (k = key) then Some v else get key obj'
  end.

(** ** Deployment order

    CloudFormation creates a resource only after every resource it was
    declared to depend on. *)

Definition dependencies (t : tree) : list (node_id * node_id) :=
  omap (fun o => match o with
                 | AddDependency a b => Some (a, cfn_owner b)
                 | _ => None
                 end) t.

Definition position (n : node_id) (order : list node_id) : option nat :=
  fst <$> list_find (fun m => bool_decide (m = n)) order.

(** [order] lists resources in the order of their creation. *)
Definition respects (order : list node_id) (deps : list (node_id * node_id)) : bool :=
  forallb (fun d => match position d.1 order with
                    | None => true
                    | Some i => match position d.2 order with
                                | Some j => bool_decide (j < i)
                                | None => false
                                end
                    end) deps.

(** * The import job

    [Repository] deploys [index.handler] of [src/functions/copy-git-repo] as
    the handler of the [Custom::RepoImportJob] resources.  The handler is
    not among the source files of the constructs; it is modelled here from
    its specification: lifecycle event handler, mirror job engine, git
    client and completion reporter. *)

Module ImportJob.

(** ** Data model *)

(** Modelled from the spec: a commit identifier, as returned by the git
    client of the missing handler. *)
Abbreviation CommitRef := string.

(** Modelled from the spec: [ImportRequest], the four properties the
    missing handler receives. *)
Record ImportRequest := {
  sourceRepoUrl : string;
  sourceBranch : string;
  targetRepoUrl : string;
  targetBranch : string;
}.

(** Modelled from the spec: the [RequestType] of a lifecycle event. *)
Inductive RequestType := Create | Update | Delete.

(** Modelled from the spec: the inbound event of the missing handler, a
    JSON-like structure; [ResourceProperties] is an object that may lack
    any of its fields, [PhysicalResourceId] comes with Update and Delete. *)
Record LifecycleEvent := {
  requestType : RequestType;
  ResourceProperties : gmap string string;
  PhysicalResourceId : option string;
}.

(** Modelled from the spec: the outcome of a completion signal. *)
Inductive Outcome := Success | Failed.

(** Modelled from the spec: [CompletionSignal], what the missing handler
    answers to the orchestrator. *)
Record CompletionSignal := {
  outcome : Outcome;
  physicalResourceId : string;
  reason : option string;
  data : gmap string string;
}.

(** Modelled from the spec: the error taxonomy [ImportError]. *)
Inductive ImportError :=
| AuthenticationFailure
| NetworkFailure
| SourceNotFound
| TargetUnreachable
| TransferVerificationFailure
| Timeout
| InternalError.

(** Modelled from the spec: the mode of the mirror job engine. *)
Inductive Mode := Full | Reconcile.

(** Modelled from the spec: [Result<T, ImportError>]. *)
Inductive Result (A : Type) :=
| Ok (a : A)
| Err (e : ImportError).
Arguments Ok {A} a.
Arguments Err {A} e.

(** ** The world of one invocation *)

(** Modelled from the spec: what the network does to one call of the git
    client, for the fake client of the design notes: the call goes
    through, it fails with an error of the taxonomy, or (for a push) it
    lands and a racing push of another writer then moves the branch. *)
Inductive behaviour :=
| Proceed
| Fail (e : ImportError)
| Raced (c : CommitRef).

(** Modelled from the spec: the calls made on the git client interface
    [headCommit], [clone], [push] of the missing handler. *)
Inductive GitCall :=
| HeadCommit (url branch : string)
| Clone (url branch : string) (destDir : nat)
| Push (destDir : nat) (targetUrl branch : string) (force : bool).

(** Modelled from the spec: the state the missing handler runs in.  The
    branch heads of the repositories are the only durable state; working
    directories are local and ephemeral; every call of the git client is
    recorded with the error it failed with, if any; the outbox is the
    orchestrator's callback channel. *)
Record World := {
  heads : gmap (string * string) CommitRef;
  workdirs : gmap nat (option CommitRef);
  script : list behaviour;
  calls : list (GitCall * option ImportError);
  outbox : list CompletionSignal;
}.

Definition set_heads (h : gmap (string * string) CommitRef) (w : World) : World :=
  {| heads := h; workdirs := workdirs w; script := script w;
     calls := calls w; outbox := outbox w |}.
Definition set_workdirs (d : gmap nat (option CommitRef)) (w : World) : World :=
  {| heads := heads w; workdirs := d; script := script w;
     calls := calls w; outbox := outbox w |}.
Definition set_script (s : list behaviour) (w : World) : World :=
  {| heads := heads w; workdirs := workdirs w; script := s;
     calls := calls w; outbox := outbox w |}.
Definition record_call (c : GitCall) (e : option ImportError) (w : World) : World :=
  {| heads := heads w; workdirs := workdirs w; script := script w;
     calls := calls w ++ [(c, e)]; outbox := outbox w |}.

(** ** Git client *)

(** Computations of the job: the world is threaded through, also past an
    error. *)
Definition Git (A : Type) := World -> Result A * World.

Definition gret {A} (a : A) : Git A := fun w => (Ok a, w).
Definition throw {A} (e : ImportError) : Git A := fun w => (Err e, w).
Definition gbind {A B} (m : Git A) (k : A -> Git B) : Git B :=
  fun w => match m w with
           | (Ok a, w') => k a w'
           | (Err e, w') => (Err e, w')
           end.

Declare Scope git_scope.
Delimit Scope git_scope with git.
Notation "x <- m ;; k" := (gbind m (fun x => k))
  (at level 100, m at next level, right associativity) : git_scope.

Definition error_of {A} (r : Result A) : option ImportError :=
  match r with Ok _ => None | Err e => Some e end.

(** Modelled from the spec: one call of the fake git client.  The call
    takes the next behaviour of the script (an exhausted script lets every
    call through); a call the network fails changes nothing; the call is
    recorded with its result. *)
Definition call {A} (c : GitCall) (body : behaviour -> Git A) : Git A :=
  fun w =>
    let b := hd Proceed (script w) in
    let w1 := set_script (tl (script w)) w in
    let (r, w2) := match b with
                   | Fail e => (Err e, w1)
                   | _ => body b w1
                   end in
    (r, record_call c (error_of r) w2).

(** Modelled from the spec: [headCommit(url, branch) -> CommitRef] of the
    git client of the missing handler; a branch that does not exist is
    reported as [SourceNotFound]. *)
Definition headCommit (url branch : string) : Git CommitRef :=
  call (HeadCommit url branch) (fun _ w =>
    match heads w !! (url, branch) with
    | Some c => (Ok c, w)
    | None => (Err SourceNotFound, w)
    end).

(** Modelled from the spec: [clone(url, branch, destDir) -> CommitRef] of
    the git client of the missing handler: the branch is checked out in
    the working directory. *)
Definition clone (url branch : string) (destDir : nat) : Git CommitRef :=
  call (Clone url branch destDir) (fun _ w =>
    match heads w !! (url, branch) with
    | Some c => (Ok c, set_workdirs (<[destDir := Some c]> (workdirs w)) w)
    | None => (Err SourceNotFound, w)
    end).

(** Modelled from the spec: [push(destDir, targetUrl, branch, force)] of
    the git client of the missing handler.  A push either fully lands or
    is rejected; it creates the branch if absent.  The fake keeps no
    history: without [force] a push lands only on an absent branch or on
    one already at the pushed commit.  Under [Raced c'] the push lands and
    the racing push then moves the branch to [c']. *)
Definition push (destDir : nat) (targetUrl branch : string) (force : bool)
  : Git unit :=
  call (Push destDir targetUrl branch force) (fun b w =>
    match workdirs w !! destDir with
    | Some (Some c) =>
        let lands :=
          force || match heads w !! (targetUrl, branch) with
                   | Some old => bool_decide (old = c)
                   | None => true
                   end in
        if lands then
          let landed := match b with Raced c' => c' | _ => c end in
          (Ok tt, set_heads (<[(targetUrl, branch) := landed]> (heads w)) w)
        else (Err TargetUnreachable, w)
    | _ => (Err InternalError, w)
    end).

(** ** Reading the record of calls *)

(** Modelled from the spec: data transfer is a clone or a push; reading a
    branch head transfers no history. *)
Definition is_transfer (c : GitCall * option ImportError) : bool :=
  match c.1 with
  | HeadCommit _ _ => false
  | Clone _ _ _ | Push _ _ _ _ => true
  end.

Definition transfers (log : list (GitCall * option ImportError))
  : list (GitCall * option ImportError) :=
  List.filter is_transfer log.

(** Modelled from the spec: the situation of atomic failure: the record
    shows a clone that succeeded and, next, a push that failed; the result
    is the error of that push. *)
Fixpoint push_failure_after_clone (log : list (GitCall * option ImportError))
  : option ImportError :=
  match log with
  | [] => None
  | c :: rest =>
      match c, rest with
      | (Clone _ _ _, None), (Push _ _ _ _, Some e) :: _ => Some e
      | _, _ => push_failure_after_clone rest
      end
  end.

(** The calls recorded since the world [w]. *)
Definition calls_since (w w' : World) : list (GitCall * option ImportError) :=
  drop (length (calls w)) (calls w').

(** The network fails none of the calls the behaviours [s] apply to. *)
Definition no_failures (s : list behaviour) : bool :=
  forallb (fun b => match b with Fail _ => false | _ => true end) s.

(** What a call of the git client leaves unchanged and what it records. *)
Record client_step {A} (c : GitCall) (w : World) (r : Result A) (w' : World)
  : Prop := {
  step_outbox : outbox w' = outbox w;
  step_script : script w' = tl (script w);
  step_calls : calls w' = calls w ++ [(c, error_of r)];
}.

(** ** Mirror job engine *)

(** Modelled from the spec: step 1 of the engine of the missing handler,
    a working directory no other invocation uses. *)
Definition acquire_workdir (w : World) : nat * World :=
  let d := fresh (dom (workdirs w)) in
  (d, set_workdirs (<[d := None]> (workdirs w)) w).

(** Modelled from the spec: the removal of the working directory. *)
Definition release_workdir (d : nat) (w : World) : World :=
  set_workdirs (delete d (workdirs w)) w.

(** Modelled from the spec: step 3 of the engine of the missing handler:
    in Reconcile mode, whether the target branch's current head already
    equals the fetched head of the source.  The comparison needs both
    heads: an error of the target-head read is an error of the run, like
    any other error of the git client. *)
Definition in_sync (request : ImportRequest) (mode : Mode) (src_head : CommitRef)
  : Git bool :=
  match mode with
  | Full => gret false
  | Reconcile =>
      (tgt_head <- headCommit (targetRepoUrl request) (targetBranch request) ;;
       gret (bool_decide (tgt_head = src_head)))%git
  end.

(** Modelled from the spec: steps 2 to 6 of the engine of the missing
    handler, inside the working directory [dir]: fetch the source head;
    skip the transfer when Reconcile finds the target in sync; otherwise
    clone, push (exact mirroring: forced) and verify the target head. *)
Definition transfer (request : ImportRequest) (mode : Mode) (dir : nat)
  : Git CommitRef :=
  (src_head <- headCommit (sourceRepoUrl request) (sourceBranch request) ;;
   synced <- in_sync request mode src_head ;;
   if (synced : bool) then gret src_head
   else
     _ <- clone (sourceRepoUrl request) (sourceBranch request) dir ;;
     _ <- push dir (targetRepoUrl request) (targetBranch request) true ;;
     tgt_head <- headCommit (targetRepoUrl request) (targetBranch request) ;;
     if bool_decide (tgt_head = src_head) then gret src_head
     else throw TransferVerificationFailure)%git.

(** Modelled from the spec: [run(request, mode)], the mirror job engine of
    the missing handler; the working directory is removed on every exit
    path. *)
Definition run (request : ImportRequest) (mode : Mode) : Git CommitRef :=
  fun w =>
    let (dir, w1) := acquire_workdir w in
    let (result, w2) := transfer request mode dir w1 in
    (result, release_workdir dir w2).


(** ** Lifecycle event handler *)

(** Modelled from the spec: the field names of [ResourceProperties] in
    the inbound event of the missing handler. *)
Definition ResourceProperties_fields : list string :=
  ["SourceRepo"; "SourceBranch"; "TargetRepo"; "TargetBranch"].

(** Modelled from the spec: the required properties an event lacks. *)
Definition missing_fields (props : gmap string string) : list string :=
  filter (fun f => props !! f = None) ResourceProperties_fields.

(** Modelled from the spec: the human-readable, non-sensitive reason the
    missing handler reports for an error. *)
Definition describe (e : ImportError) : string :=
  match e with
  | AuthenticationFailure => "AuthenticationFailure: credentials rejected"
  | NetworkFailure => "NetworkFailure: transient transport error"
  | SourceNotFound => "SourceNotFound: source repository or branch does not exist"
  | TargetUnreachable => "TargetUnreachable: target endpoint misconfigured"
  | TransferVerificationFailure =>
      "TransferVerificationFailure: target head differs from source head after push"
  | Timeout => "Timeout: invocation exceeded its time budget"
  | InternalError => "InternalError: unexpected fault"
  end.

Section Handler.

(** What the specification leaves open: how the physical resource id is
    computed from the target branch identity, which URLs are well
    formed, and the id reported when none could be computed. *)
Variable physical_id_of : string -> string -> string.
Variable well_formed_url : string -> bool.
Variable no_physical_id : string.

(** Modelled from the spec: the validation of the input shape by the
    missing handler: all [ImportRequest] fields present, URLs well
    formed; otherwise a reason for the Failed response. *)
Definition parse_request (props : gmap string string)
  : string + ImportRequest :=
  match props !! "SourceRepo", props !! "SourceBranch",
        props !! "TargetRepo", props !! "TargetBranch" with
  | Some src, Some src_branch, Some tgt, Some tgt_branch =>
      if well_formed_url src && well_formed_url tgt then
        inr {| sourceRepoUrl := src; sourceBranch := src_branch;
               targetRepoUrl := tgt; targetBranch := tgt_branch |}
      else inl "Malformed repository URL"
  | _, _, _, _ =>
      inl ("Missing required property: " +:+ join ", " (missing_fields props))
  end.

Definition succeeded (id : string) (c : CommitRef) : CompletionSignal :=
  {| outcome := Success; physicalResourceId := id; reason := None;
     data := {["CommitRef" := c]} |}.

Definition failed (id : string) (why : string) : CompletionSignal :=
  {| outcome := Failed; physicalResourceId := id; reason := Some why;
     data := ∅ |}.

(** Modelled from the spec: the engine run by Create and Update of the
    missing handler, and its conversion into a completion signal. *)
Definition import (id : string) (request : ImportRequest) (mode : Mode)
    (w : World) : CompletionSignal * World :=
  match run request mode w with
  | (Ok c, w') => (succeeded id c, w')
  | (Err e, w') => (failed id (describe e), w')
  end.

(** Modelled from the spec: [handle(event) -> CompletionSignal] of the
    missing handler.  Create imports in Full mode under the id computed
    from the target; Update imports in Reconcile mode under the id
    supplied by the orchestrator; Delete answers Success with the
    supplied id, leaving the target repository in place. *)
Definition handle (event : LifecycleEvent) (w : World)
  : CompletionSignal * World :=
  match requestType event with
  | Create =>
      match parse_request (ResourceProperties event) with
      | inr request =>
          import (physical_id_of (targetRepoUrl request) (targetBranch request))
                 request Full w
      | inl why => (failed no_physical_id why, w)
      end
  | Update =>
      match PhysicalResourceId event, parse_request (ResourceProperties event) with
      | Some id, inr request => import id request Reconcile w
      | Some id, inl why => (failed id why, w)
      | None, _ => (failed no_physical_id "Update without PhysicalResourceId", w)
      end
  | Delete =>
      match PhysicalResourceId event with
      | Some id =>
          ({| outcome := Success; physicalResourceId := id; reason := None;
              data := ∅ |}, w)
      | None => (failed no_physical_id "Delete without PhysicalResourceId", w)
      end
  end.

(** Modelled from the spec: [report(signal)], the completion reporter of
    the missing handler: the signal is delivered to the callback
    channel. *)
Definition report (signal : CompletionSignal) (w : World) : World :=
  {| heads := heads w; workdirs := workdirs w; script := script w;
     calls := calls w; outbox := outbox w ++ [signal] |}.

(** Modelled from the spec: one invocation of the missing handler: one
    event in, one completion signal out. *)
Definition invoke (event : LifecycleEvent) (w : World) : World :=
  let (signal, w') := handle event w in report signal w'.

End Handler.

End ImportJob.

(** * Deployment *)

(** The value of a synthesis-time string once the deployment-time values
    are known: [rho] gives the value of every fragment that is not literal. *)
Definition resolve (rho : frag -> string) (s : tstr) : string :=
  String.concat "" (map (fun f => match f with
                                  | Lit l => l
                                  | _ => rho f
                                  end) s).

(** The [ResourceProperties] of the lifecycle events the orchestrator sends
    to the provider of a custom resource: its properties, resolved. *)
Definition event_properties (rho : frag -> string) (p : CustomResourceProps)
  : gmap string string :=
  foldl (fun m kv => <[kv.1 := resolve rho kv.2]> m) ∅ (properties p).

(** Modelled from the spec: the invocation time budget of the platform.  An
    invocation of a function that would need [needed] seconds returns if
    that is within the function's [timeout] and is otherwise terminated
    externally when the budget is spent. *)
Inductive invocation_end :=
| Returned (seconds : N)
| TerminatedExternally (seconds : N).

Definition lambda_invocation (fp : FunctionProps) (needed : N) : invocation_end :=
  let budget := cdk.Duration.toSeconds (timeout fp) in
  if (needed <=? budget)%N then Returned needed else TerminatedExternally budget.

Definition seconds_taken (e : invocation_end) : N :=
  match e with Returned s | TerminatedExternally s => s end.

(** * Construct trees and build specifications, read back *)

(** The paths of the constructs registered in [t], in order of
    registration. *)
Definition nodes (t : tree) : list node_id :=
  omap (fun o => match o with
                 | Create n _ => Some n
                 | _ => None
                 end) t.

(** The scope of [n] is registered in [t]; the children of the root have
    no scope to register. *)
Definition scope_registered (t : tree) (n : node_id) : bool :=
  match n with
  | _ :: (_ :: _) as scope => has_node t scope
  | _ => true
  end.

(** Every construct of [t] was instantiated in a scope that is itself in
    [t], as constructors do. *)
Definition closed (t : tree) : bool :=
  forallb (scope_registered t) (nodes t).

(** No path is registered twice. *)
Definition unique (t : tree) : bool :=
  bool_decide (NoDup (nodes t)).

(** [y[k]] of an object and [y[i]] of an array. *)
Definition field (k : string) (y : yaml) : option yaml :=
  match y with
  | YObj fields => get k fields
  | _ => None
  end.

Definition item (i : nat) (y : yaml) : option yaml :=
  match y with
  | YArr l => l !! i
  | _ => None
  end.

(** [spec.applications[0].frontend.phases.preBuild.commands[0]]. *)
Definition first_preBuild_command (spec : yaml) : option yaml :=
  foldl (fun (y : option yaml) step => y ≫= step) (Some spec)
        [field "applications"; item 0; field "frontend"; field "phases";
         field "preBuild"; field "commands"; item 0].

(** The construct paths a synthesis-time string refers to. *)
Definition references (s : tstr) : list (node_id * string) :=
  omap (fun f => match f with
                 | Attr n a => Some (n, a)
                 | _ => None
                 end) s.

(** * Example inputs *)

Module Examples.

(** A hosting construct for an app in a monorepo, under a stack. *)
Definition props : AmplifyHostingProps := {|
  sourceRepo := "https://github.com/supabase/supabase.git";
  sourceBranch := "master";
  appRoot := "apps/studio";
  environmentVariables := Some [("STUDIO_PG_META_URL", "https://api.example.com/pg");
                                ("NEXT_PRIVATE_OUTPUT_TRACE_ROOT", "/")];
  liveUpdates := [{| pkg := "node"; type := nvm; version := "18" |};
                  {| pkg := "next-on-netlify"; type := npm; version := "latest" |}];
|}.

Definition stack : node_id := ["Stack"].

Definition repository : Repository :=
  Repository_at ["Repo"; "Studio"; "Stack"] {| repositoryName := "StackStudio" |}.

(** The tree once the repository has been constructed under the stack. *)
Definition repository_tree : tree :=
  Repository_ops ["Repo"; "Studio"; "Stack"] {| repositoryName := "StackStudio" |}.

(** The branch, then the import job. *)
Definition creation_order : list node_id :=
  [["ProdBranch"; "App"; "Studio"; "Stack"]; ["main"; "Repo"; "Studio"; "Stack"]].

(** The stack alone, then the hosting construct under it. *)
Definition stack_tree : tree := [Create stack PlainConstruct].

Definition hosting : AmplifyHosting :=
  AmplifyHosting_at ["Studio"; "Stack"] props.

Definition hosting_tree : tree :=
  stack_tree ++ AmplifyHosting_ops ["Studio"; "Stack"] props.

(** What the deployment resolves the attributes of the example to. *)
Definition deployed (f : frag) : string :=
  match f with
  | Attr _ "branchName" => "main"
  | Attr _ "appId" => "d2x5example"
  | Attr _ "defaultDomain" => "d2x5example.amplifyapp.com"
  | _ => "unresolved"
  end.

Import ImportJob.

Definition physical_id_of (url branch : string) : string := url +:+ "#" +:+ branch.
Definition well_formed_url (url : string) : bool :=
  String.prefix "https://" url || String.prefix "codecommit::" url.
Definition no_physical_id : string := "RepoImportJob".

Definition request : ImportRequest := {|
  sourceRepoUrl := "https://github.com/supabase/supabase.git";
  sourceBranch := "master";
  targetRepoUrl := "codecommit::us-east-1://StackStudio";
  targetBranch := "main";
|}.

Definition request_properties : gmap string string :=
  <[ "SourceRepo" := sourceRepoUrl request ]>
    (<[ "SourceBranch" := sourceBranch request ]>
       (<[ "TargetRepo" := targetRepoUrl request ]>
          (<[ "TargetBranch" := targetBranch request ]> ∅))).

(** The source at a commit, the target repository still empty, and a
    network that behaves as [behaviours] say. *)
Definition world (behaviours : list behaviour) : World := {|
  heads := {[ (sourceRepoUrl request, sourceBranch request) := "4f2a9c1" ]};
  workdirs := ∅;
  script := behaviours;
  calls := [];
  outbox := [];
|}.





Definition create_event : LifecycleEvent := {|
  requestType := Create;
  ResourceProperties := request_properties;
  PhysicalResourceId := None;
|}.

(** A Create event without [SourceBranch]. *)
Definition malformed_create_event : LifecycleEvent := {|
  requestType := Create;
  ResourceProperties := delete "SourceBranch" request_properties;
  PhysicalResourceId := None;
|}.

(** A Delete event during rollback: no properties worth reading. *)
Definition delete_event : LifecycleEvent := {|
  requestType := Delete;
  ResourceProperties := ∅;
  PhysicalResourceId := Some "codecommit::us-east-1://StackStudio#main";
|}.

(** The source cannot be reached: every call of the git client fails. *)
Definition unreachable : World :=
  {| heads := ∅; workdirs := ∅;
     script := [Fail NetworkFailure; Fail NetworkFailure; Fail NetworkFailure;
                Fail NetworkFailure; Fail NetworkFailure];
     calls := []; outbox := [] |}.

(** The source head is read and cloned, then the push is rejected. *)
Definition world_rejecting_push : World :=
  world [Proceed; Proceed; Fail AuthenticationFailure].

End Examples.

(** * Properties of the constructs *)

Section ConstructTree.

Lemma sanitizeId_nonempty (id : string) :
  id <> "" -> sanitizeId id <> "".
Proof.
  destruct id as [|c s]; [done|]. intros _. unfold sanitizeId. simpl.
  destruct (Ascii.eqb c "/"); discriminate.
Qed.

Lemma has_node_app (t1 t2 : tree) (n : node_id) :
  has_node (t1 ++ t2) n = has_node t1 n || has_node t2 n.
Proof. unfold has_node. apply existsb_app. Qed.

Lemma is_new_has_node (t : tree) (n rel : node_id) :
  is_new t n = true -> has_node t (rel ++ n) = false.
Proof.
  unfold is_new, has_node. intros Hnew.
  induction t as [|o t IH]; [done|].
  simpl in *. apply andb_true_iff in Hnew as [Ho Ht].
  rewrite (IH Ht), orb_false_r.
  destruct o; try done.
  apply bool_decide_eq_false. intros ->.
  apply negb_true_iff, bool_decide_eq_false in Ho.
  apply Ho. by exists rel.
Qed.

Lemma is_new_has_node0 (t : tree) (n : node_id) :
  is_new t n = true -> has_node t n = false.
Proof. apply (is_new_has_node t n []). Qed.

Lemma is_new_has_node1 (t : tree) (n : node_id) (a : string) :
  is_new t n = true -> has_node t (a :: n) = false.
Proof. apply (is_new_has_node t n [a]). Qed.

Lemma is_new_has_node2 (t : tree) (n : node_id) (a b : string) :
  is_new t n = true -> has_node t (a :: b :: n) = false.
Proof. apply (is_new_has_node t n [a; b]). Qed.

Lemma resource_at_app (t1 t2 : tree) (n : node_id) :
  resource_at (t1 ++ t2) n =
    match resource_at t1 n with
    | Some r => Some r
    | None => resource_at t2 n
    end.
Proof.
  induction t1 as [|o t1 IH]; [done|].
  destruct o; simpl; try done. by case_bool_decide.
Qed.

Lemma resource_at_has_node (t : tree) (n : node_id) :
  has_node t n = false -> resource_at t n = None.
Proof.
  induction t as [|o t IH]; [done|].
  destruct o; simpl; try done.
  case_bool_decide; [done|]. exact IH.
Qed.

Lemma bind_construct {A} scope id r (k : node_id -> Synth A) (t : tree) :
  sanitizeId id <> "" ->
  has_node t (sanitizeId id :: scope) = false ->
  bind (construct scope id r) k t =
    k (sanitizeId id :: scope) (t ++ [Create (sanitizeId id :: scope) r]).
Proof.
  intros Hid Hnew. unfold bind, construct.
  rewrite bool_decide_eq_false_2 by done. by rewrite Hnew.
Qed.

Lemma bind_emit {A} (o : op) (k : unit -> Synth A) (t : tree) :
  bind (emit o) k t = k tt (t ++ [o]).
Proof. done. Qed.

Lemma bind_Done {A B} (m : Synth A) (k : A -> Synth B) (t t' : tree) (a : A) :
  m t = Done a t' -> bind m k t = k a t'.
Proof. unfold bind. by intros ->. Qed.

End ConstructTree.

(** Two construct paths differ: by an id, or by their lengths. *)
Ltac node_neq :=
  let E := fresh "E" in
  intros E;
  first [ discriminate E
        | apply (f_equal length) in E; simpl in E; lia ].

(** No construct is registered yet at a path below a new construct. *)
Ltac solve_unregistered Hnew :=
  repeat rewrite has_node_app;
  repeat apply orb_false_intro;
  first
    [ exact (is_new_has_node0 _ _ Hnew)
    | exact (is_new_has_node1 _ _ _ Hnew)
    | exact (is_new_has_node2 _ _ _ _ Hnew)
    | simpl; repeat (rewrite bool_decide_eq_false_2 by node_neq); reflexivity ].

Section RepositoryFacts.

Variables (scope : node_id) (id : string) (props : RepositoryProps).
Variable t : tree.

(** What [new Repository(scope, id, props)] does on a tree where [id] is
    new under [scope]. *)
Lemma Repository_new_ok :
  id <> "" -> is_new t (sanitizeId id :: scope) = true ->
  Repository_new scope id props t =
    Done (Repository_at (sanitizeId id :: scope) props)
         (t ++ Repository_ops (sanitizeId id :: scope) props).
Proof.
  intros Hid Hnew. apply sanitizeId_nonempty in Hid.
  unfold Repository_new, grantPullPush.
  rewrite bind_construct; [|done|solve_unregistered Hnew].
  rewrite bind_construct; [|done|solve_unregistered Hnew].
  unfold bind at 1. unfold bind at 1. unfold emit at 1 2.
  rewrite bind_construct; [|done|solve_unregistered Hnew].
  unfold ret. by rewrite <- !app_assoc.
Qed.

End RepositoryFacts.

Section ImportFromUrlFacts.

Variables (this : Repository) (targetBranch url srcBranch : string).
Variable t : tree.

(** What [importFromUrl] does when [targetBranch] is a new id in the
    repository. *)
Lemma importFromUrl_ok :
  targetBranch <> "" ->
  has_node t (sanitizeId targetBranch :: repo_node this) = false ->
  let job := {| cr_node := sanitizeId targetBranch :: repo_node this;
                cr_props := importJobProps this targetBranch url srcBranch |} in
  importFromUrl this targetBranch url srcBranch t
    = Done job (t ++ [Create (cr_node job) (CdkCustomResource (cr_props job))]).
Proof.
  intros Hid Hnew. apply sanitizeId_nonempty in Hid.
  unfold importFromUrl. by rewrite bind_construct.
Qed.



Lemma has_node_lookup (t0 : tree) (n : node_id) (j : nat) (r : resource) :
  has_node t0 n = false -> t0 !! j <> Some (Create n r).
Proof.
  unfold has_node. intros Hno Hj.
  apply list_elem_of_lookup_2 in Hj.
  assert (existsb (fun o => match o with
                            | Create m _ => bool_decide (m = n)
                            | _ => false
                            end) t0 = true) as Hex; [|congruence].
  apply existsb_exists. exists (Create n r). split.
  - by apply list_elem_of_In.
  - by apply bool_decide_eq_true.
Qed.

(** An id the library refuses creates no resource. *)
Lemma importFromUrl_refused :
  targetBranch = "" \/ has_node t (sanitizeId targetBranch :: repo_node this) = true ->
  exists msg, importFromUrl this targetBranch url srcBranch t = Thrown msg.
Proof.
  unfold importFromUrl, bind, construct. intros [-> | Hdup].
  - eexists. reflexivity.
  - case_bool_decide; [by eexists|]. rewrite Hdup. by eexists.
Qed.

(** C1: every call [importFromUrl(targetBranch, sourceRepoUrlHttp,
    sourceBranch)] that the construct library accepts (the id
    [targetBranch] is not empty and is new in the repository) creates one
    custom resource, of resource type ['Custom::RepoImportJob'], whose
    properties are exactly the four fields [SourceRepo =
    sourceRepoUrlHttp], [SourceBranch = sourceBranch], [TargetRepo] = the
    GRC clone URL of the repository and [TargetBranch = targetBranch];
    these are the field names of the inbound event's
    [ResourceProperties], so that the event the job receives lacks none
    of its fields and carries these values. *)
Theorem importFromUrl_custom_resource :
  targetBranch <> "" ->
  has_node t (sanitizeId targetBranch :: repo_node this) = false ->
  exists job : CustomResource,
    importFromUrl this targetBranch url srcBranch t
      = Done job (t ++ [Create (cr_node job) (CdkCustomResource (cr_props job))]) /\
    cr_node job = sanitizeId targetBranch :: repo_node this /\
    resource_at (t ++ [Create (cr_node job) (CdkCustomResource (cr_props job))])
                (cr_node job)
      = Some (CdkCustomResource (cr_props job)) /\
    resourceType (cr_props job) = "Custom::RepoImportJob" /\
    properties (cr_props job) =
      [("SourceRepo", [Lit url]);
       ("SourceBranch", [Lit srcBranch]);
       ("TargetRepo", repositoryCloneUrlGrc this);
       ("TargetBranch", [Lit targetBranch])] /\
    map fst (properties (cr_props job)) = ImportJob.ResourceProperties_fields /\
    forall rho : frag -> string,
      let event := event_properties rho (cr_props job) in
      ImportJob.missing_fields event = [] /\
      event !! "SourceRepo" = Some url /\
      event !! "SourceBranch" = Some srcBranch /\
      event !! "TargetRepo" = Some (resolve rho (repositoryCloneUrlGrc this)) /\
      event !! "TargetBranch" = Some targetBranch.
Proof.
  intros Hid Hnew.
  eexists. split; [by apply importFromUrl_ok|]. simpl.
  split; [reflexivity|]. split.
  { rewrite resource_at_app, (resource_at_has_node _ _ Hnew). simpl.
    by rewrite bool_decide_eq_true_2. }
  do 3 (split; [reflexivity|]).
  intros rho. cbv zeta.
  unfold event_properties, ImportJob.missing_fields. simpl.
  assert (resolve rho [Lit url] = url) as -> by (unfold resolve; simpl; by destruct url).
  assert (resolve rho [Lit srcBranch] = srcBranch) as ->
    by (unfold resolve; simpl; by destruct srcBranch).
  assert (resolve rho [Lit targetBranch] = targetBranch) as ->
    by (unfold resolve; simpl; by destruct targetBranch).
  split; [|by simplify_map_eq].
  unfold ImportJob.ResourceProperties_fields.
  repeat (rewrite filter_cons_False by (by simplify_map_eq)).
  reflexivity.
Qed.

End ImportFromUrlFacts.

Section RepositoryClaims.

Variables (scope : node_id) (id : string) (props : RepositoryProps).
Variable t : tree.

(** C6: in every construction of a [Repository], the function that handles
    the import job's events ([importFunction], the [onEventHandler] of the
    import provider) is created with a timeout of 3 minutes, a bounded
    budget of 180 seconds: whatever time an invocation would need, it
    returns within that budget or is terminated externally when the
    budget is spent. *)
Theorem import_function_timeout :
  id <> "" -> is_new t (sanitizeId id :: scope) = true ->
  exists (repo : Repository) (t' : tree) (fp : FunctionProps),
    Repository_new scope id props t = Done repo t' /\
    resource_at t' (importFunction repo) = Some (LambdaFunction fp) /\
    onEventHandler (provider_props (importProvider repo)) = importFunction repo /\
    timeout fp = cdk.Duration.minutes 3 /\
    cdk.Duration.toSeconds (timeout fp) = 180%N /\
    forall needed : N,
      (seconds_taken (lambda_invocation fp needed) <= 180)%N /\
      (lambda_invocation fp needed = Returned needed \/
       lambda_invocation fp needed = TerminatedExternally 180).
Proof.
  intros Hid Hnew.
  eexists _, _, importFunctionProps.
  split; [by apply Repository_new_ok|]. simpl.
  split.
  { rewrite resource_at_app, (resource_at_has_node t).
    2: solve_unregistered Hnew.
    simpl. rewrite bool_decide_eq_false_2 by node_neq.
    by rewrite bool_decide_eq_true_2. }
  do 3 (split; [reflexivity|]).
  intros needed. unfold lambda_invocation. simpl.
  change (cdk.Duration.toSeconds (cdk.Duration.minutes 3)) with 180%N.
  destruct (N.leb_spec needed 180); simpl; split; auto; lia.
Qed.

(** C7: in every construction of a [Repository], the import function (the
    job's execution identity) is granted both [codecommit:GitPull] and
    [codecommit:GitPush] on the repository, and both grants come before
    the one creation of the import provider, whose event handler is that
    function. *)
Theorem grants_before_provider :
  id <> "" -> is_new t (sanitizeId id :: scope) = true ->
  exists (repo : Repository) (t' : tree) (i_pull i_push i_provider : nat),
    Repository_new scope id props t = Done repo t' /\
    t' !! i_pull
      = Some (Grant (importFunction repo) "codecommit:GitPull" (repo_node repo)) /\
    t' !! i_push
      = Some (Grant (importFunction repo) "codecommit:GitPush" (repo_node repo)) /\
    t' !! i_provider
      = Some (Create (provider_node (importProvider repo))
                     (CrProvider {| onEventHandler := importFunction repo |})) /\
    i_pull < i_provider /\ i_push < i_provider /\
    forall (j : nat) (r : resource),
      t' !! j = Some (Create (provider_node (importProvider repo)) r) ->
      j = i_provider.
Proof.
  intros Hid Hnew.
  eexists _, _, (length t + 2), (length t + 3), (length t + 4).
  split; [by apply Repository_new_ok|]. simpl.
  do 3 (split; [by rewrite lookup_app_r, ?Nat.add_sub' by lia|]).
  do 2 (split; [lia|]).
  intros j r Hj.
  destruct (decide (j < length t)) as [Hlt|Hge].
  - rewrite lookup_app_l in Hj by done.
    exfalso. revert Hj. apply has_node_lookup.
    solve_unregistered Hnew.
  - rewrite lookup_app_r in Hj by lia.
    destruct (j - length t) as [|[|[|[|[|k]]]]] eqn:Hk;
      simpl in Hj; try discriminate Hj.
    + apply (f_equal (fun o => match o with
                               | Some (Create n _) => length n
                               | _ => 0
                               end)) in Hj.
      simpl in Hj. lia.
    + lia.
Qed.

End RepositoryClaims.

Section HostingFacts.

Lemma is_new_app (t1 t2 : tree) (n : node_id) :
  is_new (t1 ++ t2) n = is_new t1 n && is_new t2 n.
Proof. unfold is_new. apply forallb_app. Qed.

Lemma is_new_child (t : tree) (n : node_id) (a : string) :
  is_new t n = true -> is_new t (a :: n) = true.
Proof.
  unfold is_new. rewrite !forallb_forall. intros Hn o Ho.
  specialize (Hn o Ho). destruct o; try done.
  apply negb_true_iff, bool_decide_eq_false in Hn.
  apply negb_true_iff, bool_decide_eq_false.
  intros Hs. apply Hn. etrans; [|exact Hs]. by apply suffix_cons_r.
Qed.

Lemma not_suffix_longer (n m : node_id) :
  length m < length n -> negb (bool_decide (n `suffix_of` m)) = true.
Proof.
  intros Hlen. apply negb_true_iff, bool_decide_eq_false.
  intros Hs%suffix_length. lia.
Qed.

Lemma is_new_under_parent (t : tree) (n : node_id) (a : string) (r : resource) :
  is_new t n = true -> is_new (t ++ [Create n r]) (a :: n) = true.
Proof.
  intros Hnew. rewrite is_new_app, (is_new_child _ _ _ Hnew).
  unfold is_new, forallb.
  rewrite not_suffix_longer; [done|]. rewrite length_cons. lia.
Qed.

Variables (scope : node_id) (id : string) (props : AmplifyHostingProps).
Variable t : tree.

(** What [new AmplifyHosting(scope, id, props)] does on a tree where [id]
    is new under [scope]. *)
Lemma AmplifyHosting_new_ok :
  id <> "" -> is_new t (sanitizeId id :: scope) = true ->
  AmplifyHosting_new scope id props t =
    Done (AmplifyHosting_at (sanitizeId id :: scope) props)
         (t ++ AmplifyHosting_ops (sanitizeId id :: scope) props).
Proof.
  intros Hid Hnew. pose proof (sanitizeId_nonempty _ Hid) as Hsid.
  unfold AmplifyHosting_new.
  set (this := sanitizeId id :: scope) in *.
  rewrite bind_construct; [|done|solve_unregistered Hnew].
  cbv zeta. fold this.
  pose proof (Repository_new_ok this "Repo"
                {| repositoryName := replace_slashes "" (node_path this) |}
                _ ltac:(done) (is_new_under_parent _ _ _ PlainConstruct Hnew)) as HR.
  rewrite (bind_Done _ _ _ _ _ HR). clear HR.
  change (sanitizeId "Repo") with "Repo".
  set (repo := Repository_at ("Repo" :: this) _).
  set (t1 := (t ++ [Create this PlainConstruct]) ++ Repository_ops _ _).
  assert (has_node t1 ("main" :: repo_node repo) = false) as Hmain.
  { subst t1 repo. unfold Repository_ops. simpl. solve_unregistered Hnew. }
  pose proof (importFromUrl_ok repo "main" (sourceRepo props) (sourceBranch props)
                t1 ltac:(done) Hmain) as HJ.
  cbv zeta in HJ.
  rewrite (bind_Done _ _ _ _ _ HJ). clear HJ Hmain.
  change (sanitizeId "main") with "main".
  simpl cr_node. simpl cr_props.
  subst t1. unfold Repository_ops.
  simpl importFunction. simpl provider_node. simpl provider_props.
  rewrite bind_construct; [|done|solve_unregistered Hnew].
  rewrite bind_construct; [|done|solve_unregistered Hnew].
  rewrite !bind_emit.
  rewrite bind_construct; [|done|solve_unregistered Hnew].
  rewrite !bind_emit.
  rewrite bind_construct; [|done|solve_unregistered Hnew].
  rewrite !bind_emit.
  rewrite bind_construct; [|done|solve_unregistered Hnew].
  unfold ret. rewrite <- !app_assoc. reflexivity.
Qed.

End HostingFacts.

Section StringFacts.

Lemma split_cons (c : Ascii.ascii) (s : string) :
  exists seg segs, split c s = seg :: segs.
Proof.
  induction s as [|a s (seg & segs & IH)]; simpl; [by eauto|].
  destruct (Ascii.eqb a c); [by eauto|]. rewrite IH. by eauto.
Qed.

(** A string has one more segment than it has separators. *)
Lemma length_split (c : Ascii.ascii) (s : string) :
  length (split c s) = S (occurrences c s).
Proof.
  induction s as [|a s IH]; simpl; [done|].
  destruct (Ascii.eqb a c); simpl; [by rewrite IH|].
  destruct (split_cons c s) as (seg & segs & E).
  rewrite E in *. simpl in *. exact IH.
Qed.

Lemma join_dots (k : nat) :
  join "/" (replicate (S k) "..") +:+ "/" = repeat_string "../" (S k).
Proof.
  induction k as [|k IH]; [done|].
  change (replicate (S (S k)) "..") with (".." :: replicate (S k) "..").
  change (repeat_string "../" (S (S k)))
    with ("../" +:+ repeat_string "../" (S k)).
  rewrite <- IH. reflexivity.
Qed.

Lemma map_const_replicate {A B} (b : B) (l : list A) :
  map (fun _ => b) l = replicate (length l) b.
Proof. induction l; simpl; congruence. Qed.

Lemma env_step_lookup_add (a : node_id) (env : gmap string tstr)
    (key : string) (v : tstr) :
  env_step a env (AddEnvironment a key v) !! key = Some v.
Proof.
  unfold env_step. rewrite bool_decide_eq_true_2 by done.
  apply lookup_insert_eq.
Qed.

Lemma env_step_lookup_other (a : node_id) (env : gmap string tstr)
    (o : op) (key : string) :
  match o with
  | Create n (AmplifyApp _) => n <> a
  | AddEnvironment n name _ => n <> a \/ name <> key
  | _ => True
  end ->
  env_step a env o !! key = env !! key.
Proof.
  destruct o as [n r| | | n name v | | |]; try done.
  - destruct r; try done. intros Hn. unfold env_step.
    by rewrite bool_decide_eq_false_2.
  - intros Hn. unfold env_step. case_bool_decide; [|done].
    destruct Hn as [Hn|Hn]; [done|]. by rewrite lookup_insert_ne.
Qed.

Lemma outputFileTracingRoot_repeat (appRoot : string) :
  outputFileTracingRoot appRoot
    = repeat_string "../" (length (split "/" appRoot)).
Proof.
  unfold outputFileTracingRoot.
  rewrite map_const_replicate, length_split. apply join_dots.
Qed.

End StringFacts.

(** The resource registered at a path by the operations of a construction
    on a tree where the construct is new. *)
Ltac solve_resource_at Hnew :=
  rewrite resource_at_app, resource_at_has_node by solve_unregistered Hnew;
  simpl;
  repeat (rewrite bool_decide_eq_false_2 by node_neq);
  rewrite bool_decide_eq_true_2 by reflexivity;
  reflexivity.

Section HostingClaims.

#[local] Arguments env_step : simpl never.

Variables (scope : node_id) (id : string) (props : AmplifyHostingProps).
Variable t : tree.

(** C8: whatever [sourceBranch] the props supply, the import job of an
    [AmplifyHosting] construct has [TargetBranch] ['main'] (also in the
    events the job receives) while its [SourceBranch] is the supplied
    one, and the production branch has [branchName] ['main']; no other
    import job and no other branch is created. *)
Theorem target_branch_is_main :
  id <> "" -> is_new t (sanitizeId id :: scope) = true ->
  exists (h : AmplifyHosting) (t' : tree),
    AmplifyHosting_new scope id props t = Done h t' /\
    resource_at t' (cr_node (repoImportJob h))
      = Some (CdkCustomResource (cr_props (repoImportJob h))) /\
    resourceType (cr_props (repoImportJob h)) = "Custom::RepoImportJob" /\
    get "TargetBranch" (properties (cr_props (repoImportJob h))) = Some [Lit "main"] /\
    get "SourceBranch" (properties (cr_props (repoImportJob h)))
      = Some [Lit (sourceBranch props)] /\
    (forall rho, event_properties rho (cr_props (repoImportJob h)) !! "TargetBranch"
                 = Some "main") /\
    (exists options,
       resource_at t' (prodBranch h) = Some (AmplifyBranch (app h) options) /\
       branchName options = "main" /\ stage options = "PRODUCTION") /\
    (forall n p, Create n (CdkCustomResource p) ∈ drop (length t) t' ->
                 n = cr_node (repoImportJob h)) /\
    (forall n a options, Create n (AmplifyBranch a options) ∈ drop (length t) t' ->
                         n = prodBranch h).
Proof.
  intros Hid Hnew. eexists _, _.
  split; [by apply AmplifyHosting_new_ok|].
  rewrite drop_app_length.
  unfold AmplifyHosting_ops, Repository_ops. simpl.
  split; [solve_resource_at Hnew|].
  do 3 (split; [reflexivity|]).
  split; [intros rho; unfold event_properties; simpl; by simplify_map_eq|].
  split; [eexists; split; [solve_resource_at Hnew|done]|].
  split.
  - intros n p Hin. repeat (apply elem_of_cons in Hin as [Hin|Hin]; [congruence|]).
    by apply elem_of_nil in Hin.
  - intros n a o Hin. repeat (apply elem_of_cons in Hin as [Hin|Hin]; [congruence|]).
    by apply elem_of_nil in Hin.
Qed.

(** C9: in every [AmplifyHosting] construct, the repo import custom
    resource is declared to depend on the default child (the underlying
    CloudFormation resource) of the production branch, so in every
    creation order that respects the declared dependencies the import job
    is created after the production branch. *)
Theorem import_job_depends_on_prod_branch :
  id <> "" -> is_new t (sanitizeId id :: scope) = true ->
  exists (h : AmplifyHosting) (t' : tree),
    AmplifyHosting_new scope id props t = Done h t' /\
    AddDependency (cr_node (repoImportJob h)) (DefaultChild (prodBranch h)) ∈ t' /\
    resource_at t' (cr_node (repoImportJob h))
      = Some (CdkCustomResource (cr_props (repoImportJob h))) /\
    resourceType (cr_props (repoImportJob h)) = "Custom::RepoImportJob" /\
    resource_at t' (prodBranch h)
      = Some (AmplifyBranch (app h) (prodBranchOptions (app h))) /\
    stage (prodBranchOptions (app h)) = "PRODUCTION" /\
    forall (order : list node_id) (i : nat),
      respects order (dependencies t') = true ->
      position (cr_node (repoImportJob h)) order = Some i ->
      exists j, position (prodBranch h) order = Some j /\ j < i.
Proof.
  intros Hid Hnew. eexists _, _.
  split; [by apply AmplifyHosting_new_ok|].
  assert (AddDependency (cr_node (repoImportJob (AmplifyHosting_at (sanitizeId id :: scope) props)))
            (DefaultChild (prodBranch (AmplifyHosting_at (sanitizeId id :: scope) props)))
          ∈ t ++ AmplifyHosting_ops (sanitizeId id :: scope) props) as Hdep.
  { apply elem_of_app. right.
    unfold AmplifyHosting_ops, Repository_ops. simpl.
    repeat first [apply list_elem_of_here | apply list_elem_of_further]. }
  split; [exact Hdep|].
  unfold AmplifyHosting_ops, Repository_ops. simpl.
  split; [solve_resource_at Hnew|].
  split; [reflexivity|].
  split; [solve_resource_at Hnew|].
  split; [reflexivity|].
  intros order i Hresp Hi.
  unfold respects in Hresp. rewrite forallb_forall in Hresp.
  specialize (Hresp ("main" :: "Repo" :: sanitizeId id :: scope,
                     "ProdBranch" :: "App" :: sanitizeId id :: scope)).
  simpl in Hresp. rewrite Hi in Hresp.
  destruct (position _ order) as [j|] eqn:Hj.
  - exists j. split; [done|]. eapply bool_decide_eq_true_1, Hresp.
    apply list_elem_of_In. unfold dependencies.
    apply list_elem_of_omap. eexists. split; [exact Hdep|done].
  - exfalso. apply Bool.diff_false_true, Hresp.
    apply list_elem_of_In. unfold dependencies.
    apply list_elem_of_omap. eexists. split; [exact Hdep|done].
Qed.

(** C10: for every [appRoot], the [NEXT_PRIVATE_OUTPUT_TRACE_ROOT]
    environment variable added to the app (and the value the app ends up
    with, whatever [environmentVariables] the props supply) is ['../']
    repeated [k] times, where [k] is the number of ['/']-separated
    segments of [appRoot], one more than the number of ['/'] in it; for
    the empty [appRoot] it is ['../']. *)
Theorem output_trace_root :
  id <> "" -> is_new t (sanitizeId id :: scope) = true ->
  exists (h : AmplifyHosting) (t' : tree),
    AmplifyHosting_new scope id props t = Done h t' /\
    let k := length (split "/" (appRoot props)) in
    outputFileTracingRoot (appRoot props) = repeat_string "../" k /\
    AddEnvironment (app h) "NEXT_PRIVATE_OUTPUT_TRACE_ROOT"
      [Lit (repeat_string "../" k)] ∈ t' /\
    app_environment t' (app h) !! "NEXT_PRIVATE_OUTPUT_TRACE_ROOT"
      = Some [Lit (repeat_string "../" k)] /\
    k = S (occurrences "/" (appRoot props)) /\
    (appRoot props = "" -> repeat_string "../" k = "../").
Proof.
  intros Hid Hnew. eexists _, _.
  split; [by apply AmplifyHosting_new_ok|].
  cbv zeta. rewrite <- outputFileTracingRoot_repeat.
  split; [reflexivity|].
  split.
  { apply elem_of_app. right.
    unfold AmplifyHosting_ops, Repository_ops. simpl.
    repeat first [apply list_elem_of_here | apply list_elem_of_further]. }
  split.
  { unfold app_environment. rewrite foldl_app.
    unfold AmplifyHosting_ops, Repository_ops.
    simpl.
    repeat (rewrite env_step_lookup_other
              by first [exact I | cbv beta iota; right; discriminate]).
    apply env_step_lookup_add. }
  split; [apply length_split|].
  intros ->. reflexivity.
Qed.

End HostingClaims.

(** * Properties of the import job *)

Module ImportJobFacts.
Import ImportJob.

Lemma headCommit_inv url branch w r w' :
  headCommit url branch w = (r, w') ->
  client_step (HeadCommit url branch) w r w' /\
  heads w' = heads w /\ workdirs w' = workdirs w /\
  (forall c, r = Ok c -> heads w !! (url, branch) = Some c) /\
  (no_failures (take 1 (script w)) = true ->
   forall c, heads w !! (url, branch) = Some c -> r = Ok c).
Proof.
  unfold headCommit, call. destruct w as [h wd s cl ob]. simpl.
  destruct s as [|[|e|c'] s]; simpl;
    destruct (h !! (url, branch)) as [c0|] eqn:Hh; simpl;
    intros [= <- <-]; simpl; (split; [by constructor|]);
    repeat split; intros; simplify_eq/=; done.
Qed.

Lemma clone_inv url branch dir w r w' :
  clone url branch dir w = (r, w') ->
  client_step (Clone url branch dir) w r w' /\
  heads w' = heads w /\
  (forall c, r = Ok c -> workdirs w' = <[dir := Some c]> (workdirs w)) /\
  (forall e, r = Err e -> workdirs w' = workdirs w).
Proof.
  unfold clone, call. destruct w as [h wd s cl ob]. simpl.
  destruct s as [|[|e|c'] s]; simpl;
    destruct (h !! (url, branch)) as [c0|] eqn:Hh; simpl;
    intros [= <- <-]; simpl; (split; [by constructor|]);
    repeat split; intros; simplify_eq/=; done.
Qed.

Lemma push_inv dir url branch force w r w' :
  push dir url branch force w = (r, w') ->
  client_step (Push dir url branch force) w r w' /\
  workdirs w' = workdirs w /\
  (forall e, r = Err e -> heads w' = heads w) /\
  (r = Ok tt -> exists c, heads w' = <[(url, branch) := c]> (heads w)).
Proof.
  unfold push, call. destruct w as [h wd s cl ob]. simpl.
  destruct s as [|[|e|c'] s]; simpl;
    destruct (wd !! dir) as [[c0|]|] eqn:Hd; simpl;
    try destruct (force || _) eqn:Hlands; simpl;
    intros [= <- <-]; simpl; (split; [by constructor|]);
    repeat split; intros; simplify_eq/=; eauto.
Qed.

Lemma calls_since_refl w : calls_since w w = [].
Proof. unfold calls_since. by rewrite drop_all. Qed.

Lemma calls_since_app w w' l :
  calls w' = calls w ++ l -> calls_since w w' = l.
Proof. unfold calls_since. intros ->. by rewrite drop_app_length. Qed.

Lemma push_failure_after_reads pre rest :
  transfers pre = [] ->
  push_failure_after_clone (pre ++ rest) = push_failure_after_clone rest.
Proof.
  induction pre as [|[c e] pre IH]; [done|].
  unfold transfers. simpl. unfold is_transfer at 1. simpl.
  destruct c; try discriminate. intros Hpre.
  rewrite <- (IH Hpre). by destruct (pre ++ rest).
Qed.

(** The comparison of step 3 only reads the target head. *)
Lemma in_sync_inv request mode src_head w r w' :
  in_sync request mode src_head w = (r, w') ->
  exists reads : list (GitCall * option ImportError),
    heads w' = heads w /\ workdirs w' = workdirs w /\ outbox w' = outbox w /\
    calls w' = calls w ++ reads /\ transfers reads = [] /\
    (r = Ok true ->
     mode = Reconcile /\
     heads w !! (targetRepoUrl request, targetBranch request) = Some src_head).
Proof.
  destruct mode; simpl.
  - intros [= <- <-]. exists []. rewrite app_nil_r. by repeat split.
  - unfold gbind.
    destruct (headCommit _ _ w) as [r2 w2] eqn:E2.
    apply headCommit_inv in E2 as ([] & Hh & Hwd & Hok & _).
    destruct r2 as [tgt_head|e2]; intros [= <- <-].
    + eexists [_]. do 5 (split; [done|]).
      intros [= Heq]. split; [done|]. rewrite (Hok tgt_head eq_refl).
      by apply bool_decide_eq_true_1 in Heq as ->.
    + exists [(HeadCommit (targetRepoUrl request) (targetBranch request), Some e2)].
      by do 5 (split; [done|]).
Qed.

(** A run in which the push fails after the clone succeeded ends with the
    error of the push and moves no branch head. *)
Lemma run_push_failure request mode w r w' e :
  run request mode w = (r, w') ->
  push_failure_after_clone (calls_since w w') = Some e ->
  r = Err e /\ heads w' = heads w.
Proof.
  unfold run, acquire_workdir.
  set (dir := fresh (dom (workdirs w))).
  set (w0 := set_workdirs _ w).
  destruct (transfer request mode dir w0) as [r' w5] eqn:Ht.
  intros [= <- <-].
  change (calls_since w (release_workdir dir w5)) with (drop (length (calls w0)) (calls w5)).
  change (heads (release_workdir dir w5)) with (heads w5).
  change (heads w) with (heads w0).
  revert Ht. generalize w0. clear w0. intros w0.
  unfold transfer, gbind.
  destruct (headCommit _ _ w0) as [r1 w1] eqn:E1.
  apply headCommit_inv in E1 as ([_ _ Hc1] & Hh1 & _).
  destruct r1 as [src_head|e1].
  2:{ intros [= <- <-]. rewrite Hc1, drop_app_length. discriminate. }
  destruct (in_sync _ _ _ w1) as [r2 w2] eqn:E2.
  apply in_sync_inv in E2 as (reads & Hh2 & _ & _ & Hc2 & Hreads & _).
  assert (push_failure_after_clone
            (drop (length (calls w0)) (calls w2)) = None) as Hearly.
  { rewrite Hc2, Hc1, <- app_assoc, drop_app_length. simpl.
    by rewrite <- (app_nil_r reads), (push_failure_after_reads _ _ Hreads). }
  destruct r2 as [[]|e2];
    [intros [= <- <-]; by rewrite Hearly| |intros [= <- <-]; by rewrite Hearly].
  destruct (clone _ _ _ w2) as [r3 w3] eqn:E3.
  apply clone_inv in E3 as ([_ _ Hc3] & Hh3 & _).
  destruct r3 as [cloned|e3].
  2:{ intros [= <- <-]. rewrite Hc3, Hc2, Hc1, <- !app_assoc, drop_app_length.
      simpl. rewrite (push_failure_after_reads _ _ Hreads). discriminate. }
  destruct (push _ _ _ _ w3) as [r4 w4] eqn:E4.
  apply push_inv in E4 as ([_ _ Hc4] & _ & Hh4 & _).
  destruct r4 as [[]|e4].
  2:{ intros [= <- <-]. rewrite Hc4, Hc3, Hc2, Hc1, <- !app_assoc, drop_app_length.
      simpl. rewrite (push_failure_after_reads _ _ Hreads). simpl. intros [= ->].
      split; [done|]. rewrite (Hh4 e eq_refl). congruence. }
  destruct (headCommit _ _ w4) as [r5 w5'] eqn:E5.
  apply headCommit_inv in E5 as ([_ _ Hc5] & _).
  intros Hend.
  assert (w5 = w5') as ->
    by (destruct r5 as [h|]; [destruct (bool_decide (h = src_head))|];
        unfold gret, throw in Hend; by simplify_eq).
  rewrite Hc5, Hc4, Hc3, Hc2, Hc1, <- !app_assoc, drop_app_length.
  simpl. rewrite (push_failure_after_reads _ _ Hreads). discriminate.
Qed.





(** Whatever happens, a run delivers nothing itself and removes its
    working directory. *)
Lemma run_frame request mode w r w' :
  run request mode w = (r, w') ->
  outbox w' = outbox w /\ workdirs w' = workdirs w.
Proof.
  unfold run, acquire_workdir.
  set (dir := fresh (dom (workdirs w))).
  assert (workdirs w !! dir = None) as Hdir
    by (apply not_elem_of_dom, is_fresh).
  set (w0 := set_workdirs _ w).
  destruct (transfer request mode dir w0) as [r' w5] eqn:Ht.
  intros [= <- <-]. simpl.
  enough (outbox w5 = outbox w0 /\
          exists x, workdirs w5 = <[dir := x]> (workdirs w)) as [-> [x ->]]
    by (by rewrite delete_insert_eq, delete_id).
  assert (exists x, workdirs w0 = <[dir := x]> (workdirs w)) as Hwd0 by by eexists.
  revert Ht Hwd0. generalize w0. clear w0. intros w0.
  unfold transfer, gbind.
  destruct (headCommit _ _ w0) as [r1 w1] eqn:E1.
  apply headCommit_inv in E1 as ([Ho1 _ _] & _ & Hwd1 & _).
  rewrite <- Ho1, <- Hwd1.
  destruct r1 as [src_head|e1]; [|by intros [= <- <-]].
  destruct (in_sync _ _ _ w1) as [r2 w2] eqn:E2.
  apply in_sync_inv in E2 as (reads & _ & Hwd2 & Ho2 & _).
  rewrite <- Ho2, <- Hwd2.
  destruct r2 as [[]|e2]; [by intros [= <- <-]| |by intros [= <- <-]].
  destruct (clone _ _ _ w2) as [r3 w3] eqn:E3.
  apply clone_inv in E3 as ([Ho3 _ _] & _ & Hwd3 & Hwd3').
  rewrite <- Ho3.
  destruct r3 as [cloned|e3].
  2:{ intros [= <- <-]. by rewrite (Hwd3' e3 eq_refl). }
  specialize (Hwd3 cloned eq_refl).
  destruct (push _ _ _ _ w3) as [r4 w4] eqn:E4.
  apply push_inv in E4 as ([Ho4 _ _] & Hwd4 & _).
  rewrite <- Ho4.
  assert (forall w6, workdirs w6 = workdirs w4 ->
            (exists x, workdirs w2 = <[dir:=x]> (workdirs w)) ->
            exists x, workdirs w6 = <[dir:=x]> (workdirs w)) as Hdone.
  { intros w6 -> [x Hx]. rewrite Hwd4, Hwd3, Hx. eexists. apply insert_insert_eq. }
  destruct r4 as [[]|e4]; [|intros [= <- <-] Hx; split; [done|by apply Hdone]].
  destruct (headCommit _ _ w4) as [r5 w5'] eqn:E5.
  apply headCommit_inv in E5 as ([Ho5 _ _] & _ & Hwd5 & _).
  rewrite <- Ho5.
  destruct r5 as [tgt_head|e5]; [destruct (bool_decide (tgt_head = src_head))|];
    intros [= <- <-] Hx; (split; [done|by apply Hdone]).
Qed.

Lemma prefix_app (n s : string) : String.prefix n (n +:+ s) = true.
Proof.
  induction n as [|a n IH]; simpl; [by destruct s|].
  destruct (ascii_dec a a); [exact IH|done].
Qed.

Lemma includes_here (n s : string) : includes n (n +:+ s) = true.
Proof.
  pose proof (prefix_app n s) as Hp.
  destruct (n +:+ s); unfold includes; fold includes; by rewrite Hp.
Qed.

Lemma append_empty_r (s : string) : s +:+ "" = s.
Proof.
  induction s as [|a s IH]; [done|].
  change (String a (s +:+ "") = String a s). by rewrite IH.
Qed.

Lemma includes_app_r (p n s : string) :
  includes n s = true -> includes n (p +:+ s) = true.
Proof.
  intros Hs. induction p as [|a p IH]; [done|].
  simpl. rewrite IH. apply orb_true_r.
Qed.

Lemma includes_join (f sep : string) (l : list string) :
  f ∈ l -> includes f (join sep l) = true.
Proof.
  unfold join.
  induction l as [|x l IH]; [by intros ?%elem_of_nil|].
  intros [->|Hl]%elem_of_cons.
  - destruct l; simpl.
    + rewrite <- (append_empty_r x) at 2. apply includes_here.
    + apply includes_here.
  - destruct l as [|y l]; [by apply elem_of_nil in Hl|].
    change (String.concat sep (x :: y :: l))
      with (x +:+ sep +:+ String.concat sep (y :: l)).
    by apply includes_app_r, includes_app_r, IH.
Qed.

Section HandlerFacts.

Variable physical_id_of : string -> string -> string.
Variable well_formed_url : string -> bool.
Variable no_physical_id : string.

#[local] Abbreviation handler :=
  (handle physical_id_of well_formed_url no_physical_id).
#[local] Abbreviation invocation :=
  (invoke physical_id_of well_formed_url no_physical_id).

Lemma import_inv id request mode w signal w' :
  import id request mode w = (signal, w') ->
  exists r, run request mode w = (r, w') /\
            signal = match r with
                     | Ok c => succeeded id c
                     | Err e => failed id (describe e)
                     end.
Proof.
  unfold import. destruct (run request mode w) as [[c|e] w1];
    intros [= <- <-]; by eexists.
Qed.

(** The handler either answers at once, in the world it was given, or
    answers with the result of one run of the engine. *)
Lemma handle_inv event w signal w' :
  handler event w = (signal, w') ->
  w' = w \/
  exists request mode r,
    run request mode w = (r, w') /\
    ((exists c, r = Ok c /\ outcome signal = Success) \/
     (exists e, r = Err e /\ signal = failed (physicalResourceId signal) (describe e))).
Proof.
  unfold handle.
  destruct (requestType event).
  - destruct (parse_request _ _) as [why|request]; [by intros [= <- <-]; left|].
    intros (r & Hrun & ->)%import_inv. right. exists request, Full, r.
    split; [done|]. destruct r; [left|right]; by eexists.
  - destruct (PhysicalResourceId event) as [id|]; [|by intros [= <- <-]; left].
    destruct (parse_request _ _) as [why|request]; [by intros [= <- <-]; left|].
    intros (r & Hrun & ->)%import_inv. right. exists request, Reconcile, r.
    split; [done|]. destruct r; [left|right]; by eexists.
  - destruct (PhysicalResourceId event) as [id|]; intros [= <- <-]; by left.
Qed.

(** C3: for every invocation in which the push fails after the clone
    succeeded, every branch head, the target's included, is what it was
    before the invocation, and the one signal reported is Failed, with
    the push's error as its reason; it is not Success. *)
Theorem failed_push_is_atomic event w signal w' e :
  handler event w = (signal, w') ->
  push_failure_after_clone (calls_since w w') = Some e ->
  heads w' = heads w /\
  outcome signal = Failed /\ outcome signal <> Success /\
  reason signal = Some (describe e) /\
  outbox (invocation event w) = outbox w ++ [signal].
Proof.
  intros Hhandle Hpush.
  assert (outbox (invocation event w) = outbox w' ++ [signal]) as ->
    by (unfold invoke; by rewrite Hhandle).
  destruct (handle_inv _ _ _ _ Hhandle) as [->|(request & mode & r & Hrun & Hr)].
  { by rewrite calls_since_refl in Hpush. }
  destruct (run_push_failure _ _ _ _ _ _ Hrun Hpush) as [-> Hheads].
  destruct (run_frame _ _ _ _ _ Hrun) as [-> _].
  destruct Hr as [(c & [=] & _)|(e' & [= <-] & ->)].
  by repeat split.
Qed.

(** C4: for every Delete event that carries a physical resource id, the
    handler answers Success with that id, in whatever world: it makes no
    call of the git client (so no fetch from the source, reachable or
    not) and moves no branch head, and that signal is the one
    reported. *)
Theorem delete_is_noop event w id :
  requestType event = Delete ->
  PhysicalResourceId event = Some id ->
  exists signal,
    handler event w = (signal, w) /\
    outcome signal = Success /\ physicalResourceId signal = id /\
    invocation event w = report signal w /\
    calls (invocation event w) = calls w /\
    heads (invocation event w) = heads w /\
    outbox (invocation event w) = outbox w ++ [signal].
Proof.
  intros Hdelete Hid.
  unfold invoke, handle.
  rewrite Hdelete, Hid. eexists. by repeat split.
Qed.

Lemma parse_request_missing props field :
  field ∈ ResourceProperties_fields ->
  props !! field = None ->
  parse_request well_formed_url props
    = inl ("Missing required property: " +:+ join ", " (missing_fields props)).
Proof.
  intros Hfield Hmissing. unfold parse_request.
  destruct (props !! "SourceRepo") eqn:H1; [|done].
  destruct (props !! "SourceBranch") eqn:H2; [|done].
  destruct (props !! "TargetRepo") eqn:H3; [|done].
  destruct (props !! "TargetBranch") eqn:H4; [|done].
  unfold ResourceProperties_fields in Hfield.
  repeat (apply elem_of_cons in Hfield as [->|Hfield]; [congruence|]).
  by apply elem_of_nil in Hfield.
Qed.

(** C5: for every Create event whose properties lack [SourceBranch], or
    any other required field, the handler answers Failed, not Success,
    with a reason that names the missing field; it does so at once,
    without any call of the git client, and that signal is the one
    reported for the invocation. *)
Theorem malformed_create_fails event w field :
  requestType event = Create ->
  field ∈ ResourceProperties_fields ->
  ResourceProperties event !! field = None ->
  exists signal why,
    handler event w = (signal, w) /\
    outcome signal = Failed /\ outcome signal <> Success /\
    reason signal = Some why /\ includes field why = true /\
    invocation event w = report signal w /\
    calls (invocation event w) = calls w /\
    outbox (invocation event w) = outbox w ++ [signal].
Proof.
  intros Hcreate Hfield Hmissing.
  unfold invoke, handle.
  rewrite Hcreate, (parse_request_missing _ _ Hfield Hmissing).
  eexists _, _. repeat split; [done|].
  apply includes_app_r, includes_join.
  apply list_elem_of_filter. by split.
Qed.

End HandlerFacts.

End ImportJobFacts.

(** * The properties at concrete inputs *)

Lemma importFromUrl_custom_resource_witness :
  "main" <> "" /\
  has_node Examples.repository_tree
           (sanitizeId "main" :: repo_node Examples.repository) = false /\
  exists job : CustomResource,
    importFromUrl Examples.repository "main"
      "https://github.com/supabase/supabase.git" "master" Examples.repository_tree
      = Done job (Examples.repository_tree
                    ++ [Create (cr_node job) (CdkCustomResource (cr_props job))]) /\
    resourceType (cr_props job) = "Custom::RepoImportJob" /\
    map fst (properties (cr_props job)) = ImportJob.ResourceProperties_fields.
Proof.
  split; [discriminate|]. split; [reflexivity|].
  destruct (importFromUrl_custom_resource Examples.repository "main"
              "https://github.com/supabase/supabase.git" "master"
              Examples.repository_tree ltac:(discriminate) eq_refl)
    as (job & Hrun & _ & _ & Htype & _ & Hfields & _).
  exists job. repeat split; assumption.
Defined.

Lemma import_function_timeout_witness :
  "Repo" <> "" /\
  is_new [] (sanitizeId "Repo" :: Examples.stack) = true /\
  exists (repo : Repository) (t' : tree) (fp : FunctionProps),
    Repository_new Examples.stack "Repo" {| repositoryName := "StackRepo" |} []
      = Done repo t' /\
    resource_at t' (importFunction repo) = Some (LambdaFunction fp) /\
    cdk.Duration.toSeconds (timeout fp) = 180%N.
Proof.
  split; [discriminate|]. split; [reflexivity|].
  destruct (import_function_timeout Examples.stack "Repo"
              {| repositoryName := "StackRepo" |} [] ltac:(discriminate) eq_refl)
    as (repo & t' & fp & Hrun & Hfn & _ & _ & Hseconds & _).
  exists repo, t', fp. repeat split; assumption.
Defined.

Lemma grants_before_provider_witness :
  "Repo" <> "" /\
  is_new [] (sanitizeId "Repo" :: Examples.stack) = true /\
  exists (repo : Repository) (t' : tree) (i_pull i_push i_provider : nat),
    Repository_new Examples.stack "Repo" {| repositoryName := "StackRepo" |} []
      = Done repo t' /\
    t' !! i_pull
      = Some (Grant (importFunction repo) "codecommit:GitPull" (repo_node repo)) /\
    t' !! i_push
      = Some (Grant (importFunction repo) "codecommit:GitPush" (repo_node repo)) /\
    t' !! i_provider
      = Some (Create (provider_node (importProvider repo))
                     (CrProvider {| onEventHandler := importFunction repo |})) /\
    i_pull < i_provider /\ i_push < i_provider.
Proof.
  split; [discriminate|]. split; [reflexivity|].
  destruct (grants_before_provider Examples.stack "Repo"
              {| repositoryName := "StackRepo" |} [] ltac:(discriminate) eq_refl)
    as (repo & t' & i_pull & i_push & i_provider
        & Hrun & Hpull & Hpush & Hprovider & Hlt1 & Hlt2 & _).
  exists repo, t', i_pull, i_push, i_provider. repeat split; assumption.
Defined.

Lemma target_branch_is_main_witness :
  "Studio" <> "" /\
  is_new [] (sanitizeId "Studio" :: Examples.stack) = true /\
  exists (h : AmplifyHosting) (t' : tree),
    AmplifyHosting_new Examples.stack "Studio" Examples.props [] = Done h t' /\
    get "TargetBranch" (properties (cr_props (repoImportJob h))) = Some [Lit "main"] /\
    get "SourceBranch" (properties (cr_props (repoImportJob h))) = Some [Lit "master"] /\
    exists options,
      resource_at t' (prodBranch h) = Some (AmplifyBranch (app h) options) /\
      branchName options = "main".
Proof.
  split; [discriminate|]. split; [reflexivity|].
  destruct (target_branch_is_main Examples.stack "Studio" Examples.props []
              ltac:(discriminate) eq_refl)
    as (h & t' & Hrun & _ & _ & Htarget & Hsource & _ & (options & Hbranch & Hname & _) & _).
  exists h, t'. repeat split; try assumption.
  exists options. split; assumption.
Defined.

Lemma import_job_depends_on_prod_branch_witness :
  "Studio" <> "" /\
  is_new [] (sanitizeId "Studio" :: Examples.stack) = true /\
  exists (h : AmplifyHosting) (t' : tree),
    AmplifyHosting_new Examples.stack "Studio" Examples.props [] = Done h t' /\
    AddDependency (cr_node (repoImportJob h)) (DefaultChild (prodBranch h)) ∈ t' /\
    respects Examples.creation_order (dependencies t') = true /\
    position (cr_node (repoImportJob h)) Examples.creation_order = Some 1 /\
    exists j, position (prodBranch h) Examples.creation_order = Some j /\ j < 1.
Proof.
  split; [discriminate|]. split; [reflexivity|].
  destruct (import_job_depends_on_prod_branch Examples.stack "Studio" Examples.props []
              ltac:(discriminate) eq_refl)
    as (h & t' & Hrun & Hdep & _ & _ & _ & _ & Horder).
  exists h, t'.
  assert (Done h t' = AmplifyHosting_new Examples.stack "Studio" Examples.props [])
    as Hvalue by (symmetry; exact Hrun).
  vm_compute in Hvalue. injection Hvalue as -> ->.
  split; [exact Hrun|]. split; [exact Hdep|].
  split; [reflexivity|]. split; [reflexivity|].
  apply (Horder Examples.creation_order 1); reflexivity.
Defined.

Lemma output_trace_root_witness :
  "Studio" <> "" /\
  is_new [] (sanitizeId "Studio" :: Examples.stack) = true /\
  exists (h : AmplifyHosting) (t' : tree),
    AmplifyHosting_new Examples.stack "Studio" Examples.props [] = Done h t' /\
    app_environment t' (app h) !! "NEXT_PRIVATE_OUTPUT_TRACE_ROOT"
      = Some [Lit "../../"].
Proof.
  split; [discriminate|]. split; [reflexivity|].
  destruct (output_trace_root Examples.stack "Studio" Examples.props []
              ltac:(discriminate) eq_refl)
    as (h & t' & Hrun & _ & _ & Henv & _).
  exists h, t'. split; assumption.
Defined.



Lemma failed_push_is_atomic_witness :
  let handled :=
    ImportJob.handle Examples.physical_id_of Examples.well_formed_url
      Examples.no_physical_id Examples.create_event Examples.world_rejecting_push in
  ImportJob.push_failure_after_clone
    (ImportJob.calls_since Examples.world_rejecting_push handled.2)
    = Some ImportJob.AuthenticationFailure /\
  ImportJob.heads handled.2 = ImportJob.heads Examples.world_rejecting_push /\
  ImportJob.outcome handled.1 = ImportJob.Failed /\
  ImportJob.reason handled.1
    = Some (ImportJob.describe ImportJob.AuthenticationFailure).
Proof.
  intros handled.
  assert (ImportJob.push_failure_after_clone
            (ImportJob.calls_since Examples.world_rejecting_push handled.2)
          = Some ImportJob.AuthenticationFailure) as Hpush
    by (vm_compute; reflexivity).
  split; [exact Hpush|].
  destruct (ImportJobFacts.failed_push_is_atomic
              Examples.physical_id_of Examples.well_formed_url Examples.no_physical_id
              Examples.create_event Examples.world_rejecting_push
              handled.1 handled.2 ImportJob.AuthenticationFailure
              (surjective_pairing handled) Hpush)
    as (Hheads & Hfailed & _ & Hreason & _).
  repeat split; assumption.
Defined.

Lemma delete_is_noop_witness :
  ImportJob.requestType Examples.delete_event = ImportJob.Delete /\
  ImportJob.PhysicalResourceId Examples.delete_event
    = Some "codecommit::us-east-1://StackStudio#main" /\
  exists signal,
    ImportJob.handle Examples.physical_id_of Examples.well_formed_url
      Examples.no_physical_id Examples.delete_event Examples.unreachable
      = (signal, Examples.unreachable) /\
    ImportJob.outcome signal = ImportJob.Success /\
    ImportJob.physicalResourceId signal = "codecommit::us-east-1://StackStudio#main" /\
    ImportJob.calls
      (ImportJob.invoke Examples.physical_id_of Examples.well_formed_url
         Examples.no_physical_id Examples.delete_event Examples.unreachable) = [].
Proof.
  split; [reflexivity|]. split; [reflexivity|].
  destruct (ImportJobFacts.delete_is_noop
              Examples.physical_id_of Examples.well_formed_url Examples.no_physical_id
              Examples.delete_event Examples.unreachable
              "codecommit::us-east-1://StackStudio#main" eq_refl eq_refl)
    as (signal & Hhandle & Hsuccess & Hid & _ & Hcalls & _).
  exists signal. repeat split; assumption.
Defined.

Lemma malformed_create_fails_witness :
  ImportJob.requestType Examples.malformed_create_event = ImportJob.Create /\
  "SourceBranch" ∈ ImportJob.ResourceProperties_fields /\
  ImportJob.ResourceProperties Examples.malformed_create_event !! "SourceBranch" = None /\
  exists signal why,
    ImportJob.handle Examples.physical_id_of Examples.well_formed_url
      Examples.no_physical_id Examples.malformed_create_event (Examples.world [])
      = (signal, Examples.world []) /\
    ImportJob.outcome signal = ImportJob.Failed /\
    ImportJob.reason signal = Some why /\
    includes "SourceBranch" why = true.
Proof.
  assert ("SourceBranch" ∈ ImportJob.ResourceProperties_fields) as Hfield
    by (apply list_elem_of_further, list_elem_of_here).
  split; [reflexivity|]. split; [exact Hfield|]. split; [vm_compute; reflexivity|].
  destruct (ImportJobFacts.malformed_create_fails
              Examples.physical_id_of Examples.well_formed_url Examples.no_physical_id
              Examples.malformed_create_event (Examples.world []) "SourceBranch"
              eq_refl Hfield ltac:(vm_compute; reflexivity))
    as (signal & why & Hhandle & Hfailed & _ & Hreason & Hnames & _).
  exists signal, why. repeat split; assumption.
Defined.

(** * Further properties of the constructs *)

Section Inversion.

Lemma bind_inv {A B} (m : Synth A) (k : A -> Synth B) (t t' : tree) (b : B) :
  bind m k t = Done b t' ->
  exists a t1, m t = Done a t1 /\ k a t1 = Done b t'.
Proof. unfold bind. destruct (m t) as [a t1|msg]; [by eauto|done]. Qed.

Lemma construct_inv scope id r (t t' : tree) (n : node_id) :
  construct scope id r t = Done n t' ->
  sanitizeId id <> "" /\ has_node t (sanitizeId id :: scope) = false /\
  n = sanitizeId id :: scope /\ t' = t ++ [Create (sanitizeId id :: scope) r].
Proof.
  unfold construct. case_bool_decide as Hid; [done|].
  destruct (has_node t _) eqn:Hnew; [done|]. by intros [= <- <-].
Qed.

Lemma sanitizeId_empty (id : string) : sanitizeId id = "" -> id = "".
Proof.
  intros Hs. destruct (decide (id = "")) as [|Hid]; [done|].
  by apply sanitizeId_nonempty in Hid.
Qed.

Lemma has_node_app_false (t1 t2 : tree) (n : node_id) :
  has_node (t1 ++ t2) n = false -> has_node t1 n = false /\ has_node t2 n = false.
Proof. rewrite has_node_app. apply orb_false_elim. Qed.

(** Every [new Repository] that returns has performed the operations of
    [Repository_ops], at paths that were not registered. *)
Lemma Repository_new_inv scope id props (t t' : tree) (repo : Repository) :
  Repository_new scope id props t = Done repo t' ->
  id <> "" /\
  has_node t (sanitizeId id :: scope) = false /\
  has_node t ("ImportFunction" :: sanitizeId id :: scope) = false /\
  has_node t ("ImportProvider" :: sanitizeId id :: scope) = false /\
  repo = Repository_at (sanitizeId id :: scope) props /\
  t' = t ++ Repository_ops (sanitizeId id :: scope) props.
Proof.
  unfold Repository_new, grantPullPush. intros H.
  apply bind_inv in H as (this & t1 & Hc & H).
  apply construct_inv in Hc as (Hid & Hthis & -> & ->).
  apply bind_inv in H as (fn & t2 & Hc & H).
  apply construct_inv in Hc as (_ & Hfn & -> & ->).
  apply bind_inv in H as ([] & t3 & Hg & H).
  assert (t3 = (t ++ [Create (sanitizeId id :: scope) (CodeCommitRepository props)])
                 ++ [Create ("ImportFunction" :: sanitizeId id :: scope)
                       (LambdaFunction importFunctionProps);
                     Grant ("ImportFunction" :: sanitizeId id :: scope)
                       "codecommit:GitPull" (sanitizeId id :: scope);
                     Grant ("ImportFunction" :: sanitizeId id :: scope)
                       "codecommit:GitPush" (sanitizeId id :: scope)]) as ->.
  { unfold bind, emit in Hg. injection Hg as <-. by rewrite <- !app_assoc. }
  cbv zeta in H.
  apply bind_inv in H as (provider & t4 & Hc & H).
  apply construct_inv in Hc as (_ & Hprovider & -> & ->).
  injection H as <- <-.
  apply has_node_app_false in Hfn as [Hfn _].
  apply has_node_app_false in Hprovider as [Hprovider _].
  apply has_node_app_false in Hprovider as [Hprovider _].
  split; [by intros ->|].
  repeat split; try done.
  unfold Repository_ops. by rewrite <- !app_assoc.
Qed.

Lemma importFromUrl_inv (this : Repository) targetBranch url srcBranch
    (t t' : tree) (job : CustomResource) :
  importFromUrl this targetBranch url srcBranch t = Done job t' ->
  targetBranch <> "" /\
  has_node t (sanitizeId targetBranch :: repo_node this) = false /\
  job = {| cr_node := sanitizeId targetBranch :: repo_node this;
           cr_props := importJobProps this targetBranch url srcBranch |} /\
  t' = t ++ [Create (cr_node job) (CdkCustomResource (cr_props job))].
Proof.
  unfold importFromUrl. intros H.
  apply bind_inv in H as (n & t1 & Hc & H).
  apply construct_inv in Hc as (Hid & Hnew & -> & ->).
  injection H as <- <-. split; [by intros ->|]. by repeat split.
Qed.

End Inversion.

(** The path on the left of a tree that a check went through was not
    registered in the tree the construction started from. *)
Ltac unregistered_at_start H :=
  repeat (apply has_node_app_false in H as [H _]).

Section HostingInversion.

Variables (scope : node_id) (id : string) (props : AmplifyHostingProps).
Variable t : tree.

(** Every [new AmplifyHosting] that returns has performed the operations of
    [AmplifyHosting_ops], at paths that were not registered. *)
Lemma AmplifyHosting_new_inv (h : AmplifyHosting) (t' : tree) :
  AmplifyHosting_new scope id props t = Done h t' ->
  id <> "" /\
  (forall n, n ∈ nodes (AmplifyHosting_ops (sanitizeId id :: scope) props) ->
             has_node t n = false) /\
  h = AmplifyHosting_at (sanitizeId id :: scope) props /\
  t' = t ++ AmplifyHosting_ops (sanitizeId id :: scope) props.
Proof.
  unfold AmplifyHosting_new. intros H.
  apply bind_inv in H as (this & t1 & Hc & H).
  apply construct_inv in Hc as (Hid & Hthis & -> & ->).
  cbv zeta in H.
  apply bind_inv in H as (repo & t2 & Hc & H).
  apply Repository_new_inv in Hc as (_ & Hrepo & Hfn & Hprovider & -> & ->).
  apply bind_inv in H as (job & t3 & Hc & H).
  apply importFromUrl_inv in Hc as (_ & Hjob & -> & ->).
  apply bind_inv in H as (role & t4 & Hc & H).
  apply construct_inv in Hc as (_ & Hrole & -> & ->).
  apply bind_inv in H as (app0 & t5 & Hc & H).
  apply construct_inv in Hc as (_ & Happ & -> & ->).
  rewrite !bind_emit in H.
  apply bind_inv in H as (branch & t6 & Hc & H).
  apply construct_inv in Hc as (_ & Hbranch & -> & ->).
  rewrite !bind_emit in H.
  apply bind_inv in H as (policy & t7 & Hc & H).
  apply construct_inv in Hc as (_ & Hpolicy & -> & ->).
  rewrite !bind_emit in H.
  apply bind_inv in H as (url & t8 & Hc & H).
  apply construct_inv in Hc as (_ & Hurl & -> & ->).
  injection H as <- <-.
  unregistered_at_start Hrepo. unregistered_at_start Hfn.
  unregistered_at_start Hprovider. unregistered_at_start Hjob.
  unregistered_at_start Hrole. unregistered_at_start Happ.
  unregistered_at_start Hbranch. unregistered_at_start Hpolicy.
  unregistered_at_start Hurl.
  split; [by intros ->|]. split; [|split].
  - intros n Hn. unfold nodes, AmplifyHosting_ops, Repository_ops in Hn.
    simpl in Hn.
    repeat (apply elem_of_cons in Hn as [->|Hn]; [assumption|]).
    by apply elem_of_nil in Hn.
  - reflexivity.
  - unfold AmplifyHosting_ops, Repository_ops. rewrite <- !app_assoc. reflexivity.
Qed.

End HostingInversion.

Section MoreStringFacts.

Lemma append_String (c : Ascii.ascii) (a b : string) :
  String c a +:+ b = String c (a +:+ b).
Proof. reflexivity. Qed.

Lemma split_app (a b : string) :
  split "/" (a +:+ String "/" b) = split "/" a ++ split "/" b.
Proof.
  induction a as [|c a IH]; [done|].
  rewrite append_String. simpl. rewrite IH.
  destruct (Ascii.eqb c "/"); [done|].
  by destruct (split_cons "/" a) as (seg & segs & ->).
Qed.

Lemma append_assoc (a b c : string) : (a +:+ b) +:+ c = a +:+ b +:+ c.
Proof.
  induction a as [|d a IH]; [done|]. rewrite !append_String. by rewrite IH.
Qed.

Lemma repeat_string_add (s : string) (j k : nat) :
  repeat_string s (j + k) = repeat_string s j +:+ repeat_string s k.
Proof.
  induction j as [|j IH]; [done|].
  simpl. by rewrite IH, append_assoc.
Qed.

Lemma replace_slashes_app (r a b : string) :
  replace_slashes r (a +:+ b) = replace_slashes r a +:+ replace_slashes r b.
Proof.
  induction a as [|c a IH]; [done|].
  rewrite append_String. simpl. rewrite IH.
  destruct (Ascii.eqb c "/"); [|done].
  by rewrite append_assoc.
Qed.

Lemma replace_slashes_join (l : list string) :
  replace_slashes "" (join "/" l)
    = String.concat "" (map (replace_slashes "") l).
Proof.
  unfold join. induction l as [|x [|y l] IH]; [done|done|].
  change (String.concat "/" (x :: y :: l))
    with (x +:+ String "/" (String.concat "/" (y :: l))).
  rewrite replace_slashes_app.
  change (replace_slashes "" (String "/" (String.concat "/" (y :: l))))
    with (replace_slashes "" (String.concat "/" (y :: l))).
  rewrite IH. reflexivity.
Qed.

Lemma occurrences_app (c : Ascii.ascii) (a b : string) :
  occurrences c (a +:+ b) = occurrences c a + occurrences c b.
Proof.
  induction a as [|d a IH]; [done|].
  rewrite append_String. simpl. rewrite IH. lia.
Qed.

Lemma replace_slashes_clean (s : string) :
  occurrences "/" (replace_slashes "" s) = 0.
Proof.
  induction s as [|c s IH]; [done|]. simpl.
  destruct (Ascii.eqb c "/") eqn:Hc; [exact IH|].
  simpl. by rewrite Hc, IH.
Qed.

Lemma length_append (a b : string) :
  String.length (a +:+ b) = String.length a + String.length b.
Proof.
  induction a as [|c a IH]; [done|]. rewrite append_String. simpl. by rewrite IH.
Qed.

(** X1: the trace root of a path composed of two paths is the composition
    of their trace roots; so a trailing separator adds one level. *)
Theorem outputFileTracingRoot_compose (a b : string) :
  outputFileTracingRoot (a +:+ String "/" b)
    = outputFileTracingRoot a +:+ outputFileTracingRoot b /\
  outputFileTracingRoot (a +:+ "/") = outputFileTracingRoot a +:+ "../".
Proof.
  assert (forall x y, outputFileTracingRoot (x +:+ String "/" y)
                      = outputFileTracingRoot x +:+ outputFileTracingRoot y) as Hcompose.
  { intros x y. rewrite !outputFileTracingRoot_repeat, split_app, length_app.
    apply repeat_string_add. }
  split; [apply Hcompose|apply (Hcompose a "")].
Qed.

End MoreStringFacts.

(** One of the paths a construction registers. *)
Ltac solve_registered_path :=
  unfold nodes, AmplifyHosting_ops, Repository_ops; simpl;
  repeat first [apply list_elem_of_here | apply list_elem_of_further].

(** The resource registered at a path by the operations of a hosting
    construction that returned; [Hnew] says its paths were unregistered. *)
Ltac solve_resource_of_hosting Hnew :=
  rewrite resource_at_app, resource_at_has_node
    by (apply Hnew; solve_registered_path);
  unfold AmplifyHosting_ops, Repository_ops; simpl;
  repeat (rewrite bool_decide_eq_false_2 by node_neq);
  rewrite bool_decide_eq_true_2 by reflexivity;
  reflexivity.

Section HostingNames.

Variables (scope : node_id) (id : string) (props : AmplifyHostingProps).
Variable t : tree.

(** X2: in every hosting construct, the repository and the app get the same
    name: the ids on the construct's path, each without its ['/'], put
    together with nothing between them; the name holds no ['/']. *)
Theorem hosting_names (h : AmplifyHosting) (t' : tree) :
  AmplifyHosting_new scope id props t = Done h t' ->
  exists (name : string) (p : AppProps),
    resource_at t' (repo_node (hosting_repository h))
      = Some (CodeCommitRepository {| repositoryName := name |}) /\
    resource_at t' (app h) = Some (AmplifyApp p) /\
    appName p = name /\
    name = String.concat "" (map (replace_slashes "") (rev (hosting_node h))) /\
    occurrences "/" name = 0.
Proof.
  intros (Hid & Hnew & -> & ->)%AmplifyHosting_new_inv.
  eexists _, _.
  split; [solve_resource_of_hosting Hnew|].
  split; [solve_resource_of_hosting Hnew|].
  split; [reflexivity|].
  split; [apply replace_slashes_join|apply replace_slashes_clean].
Qed.

End HostingNames.

(** X3: the name does not tell constructs apart: a construct [c] in a scope
    whose id ends with [b] and a construct [b ++ c] in the scope without
    that ending are different constructs with the same repository name. *)
Theorem repository_name_collision (a b c : string) (rest : node_id)
    (props1 props2 : AmplifyHostingProps) (t1 t2 t1' t2' : tree)
    (h1 h2 : AmplifyHosting) :
  AmplifyHosting_new ((a +:+ sanitizeId b) :: rest) c props1 t1 = Done h1 t1' ->
  AmplifyHosting_new (a :: rest) (b +:+ c) props2 t2 = Done h2 t2' ->
  b <> "" ->
  hosting_node h1 <> hosting_node h2 /\
  repositoryName (repo_props (hosting_repository h1))
    = repositoryName (repo_props (hosting_repository h2)).
Proof.
  intros (_ & _ & -> & _)%AmplifyHosting_new_inv
         (_ & _ & -> & _)%AmplifyHosting_new_inv Hb.
  split.
  - simpl. intros [= _ Heq].
    apply (f_equal String.length) in Heq. rewrite length_append in Heq.
    apply sanitizeId_nonempty in Hb.
    destruct (sanitizeId b); [done|]. simpl in Heq. lia.
  - simpl. unfold node_path. rewrite !replace_slashes_join. simpl rev.
    rewrite !map_app. simpl. unfold sanitizeId.
    rewrite !replace_slashes_app.
    generalize (map (replace_slashes "") (rev rest)). intros l.
    induction l as [|x [|y l] IH]; simpl in *.
    + by rewrite append_assoc.
    + by rewrite !append_assoc.
    + f_equal. f_equal. exact IH.
Qed.

Section HostingEnvironment.

#[local] Arguments env_step : simpl never.

Lemma get_None {A} (key : string) (obj : list (string * A)) :
  key ∉ map fst obj -> get key obj = None.
Proof.
  induction obj as [|[k v] obj IH]; [done|].
  simpl. intros [Hk Hobj]%not_elem_of_cons.
  rewrite bool_decide_eq_false_2 by done. by apply IH.
Qed.

(** The props' variables as the app's constructor takes them: each name
    gets its value. *)
Lemma initial_environment_lookup (env : list (string * string))
    (m : gmap string tstr) (key : string) :
  NoDup (map fst env) ->
  foldl (fun e kv => <[kv.1 := [Lit kv.2]]> e) m env !! key
    = match get key env with
      | Some v => Some [Lit v]
      | None => m !! key
      end.
Proof.
  revert m. induction env as [|[k v] env IH]; intros m; [done|].
  simpl. intros [Hk Henv]%NoDup_cons. rewrite (IH _ Henv).
  case_bool_decide as Hkey.
  - subst k. by rewrite (get_None _ _ Hk), lookup_insert_eq.
  - destruct (get key env); [done|]. by rewrite lookup_insert_ne.
Qed.

Lemma includes_app_l (n s q : string) :
  includes n s = true -> includes n (s +:+ q) = true.
Proof.
  assert (forall m s0, String.prefix m s0 = true -> String.prefix m (s0 +:+ q) = true)
    as Hprefix.
  { induction m as [|c m IH]; intros [|d s0]; simpl; try done.
    - by destruct q.
    - destruct (ascii_dec c d); [apply IH|done]. }
  induction s as [|c s IH].
  - unfold includes. rewrite orb_false_r. intros Hn. apply (Hprefix n "") in Hn.
    destruct ("" +:+ q); unfold includes; fold includes; by rewrite Hn.
  - rewrite append_String. unfold includes; fold includes.
    intros [Hn|Hn]%orb_true_iff.
    + apply (Hprefix n (String c s)) in Hn. rewrite append_String in Hn.
      by rewrite Hn.
    + rewrite (IH Hn). apply orb_true_r.
Qed.

Variables (scope : node_id) (id : string) (props : AmplifyHostingProps).
Variable t : tree.

(** X4: the app of a hosting construct ends with the four variables the
    constructor adds, whatever the props say about those names, and with
    every other variable of the props unchanged; a name the props do not set
    and the constructor does not add is not set. *)
Theorem app_environment_of_hosting (h : AmplifyHosting) (t' : tree) :
  AmplifyHosting_new scope id props t = Done h t' ->
  NoDup (map fst (default [] (environmentVariables props))) ->
  app_environment t' (app h) !! "NEXT_PRIVATE_OUTPUT_TRACE_ROOT"
    = Some [Lit (outputFileTracingRoot (appRoot props))] /\
  app_environment t' (app h) !! "AMPLIFY_MONOREPO_APP_ROOT"
    = Some [Lit (appRoot props)] /\
  app_environment t' (app h) !! "AMPLIFY_DIFF_DEPLOY" = Some [Lit "false"] /\
  app_environment t' (app h) !! "_LIVE_UPDATES"
    = Some [JSON_stringify (liveUpdates props)] /\
  forall key : string,
    key ∉ ["NEXT_PRIVATE_OUTPUT_TRACE_ROOT"; "AMPLIFY_MONOREPO_APP_ROOT";
           "AMPLIFY_DIFF_DEPLOY"; "_LIVE_UPDATES"] ->
    app_environment t' (app h) !! key
      = (fun v => [Lit v]) <$> get key (default [] (environmentVariables props)).
Proof.
  intros (Hid & Hnew & -> & ->)%AmplifyHosting_new_inv Hobject.
  unfold app_environment. rewrite foldl_app.
  unfold AmplifyHosting_ops, Repository_ops. simpl.
  unfold env_step. rewrite !bool_decide_eq_true_2 by reflexivity.
  do 4 (split; [by simplify_map_eq|]).
  intros key Hkey.
  repeat (apply not_elem_of_cons in Hkey as [? Hkey]).
  rewrite !lookup_insert_ne by done.
  rewrite (initial_environment_lookup _ _ _ Hobject).
  by destruct (get key _).
Qed.

(** X13: the first pre-build command of the app's build specification
    greps the environment with one [-e] pattern for every variable of the
    props; with no variable it is a [grep] without any pattern. *)
Theorem preBuild_greps_every_variable (h : AmplifyHosting) (t' : tree) :
  AmplifyHosting_new scope id props t = Done h t' ->
  exists (p : AppProps) (command : string),
    resource_at t' (app h) = Some (AmplifyApp p) /\
    first_preBuild_command (buildSpec p) = Some (YStr command) /\
    (forall name value,
       (name, value) ∈ default [] (environmentVariables props) ->
       includes ("-e " +:+ name) command = true) /\
    (default [] (environmentVariables props) = [] ->
     command = "env | grep  >> .env.production").
Proof.
  intros (Hid & Hnew & -> & ->)%AmplifyHosting_new_inv.
  eexists _, _.
  split; [solve_resource_of_hosting Hnew|].
  split; [reflexivity|].
  split.
  - intros name value Hin.
    apply ImportJobFacts.includes_app_r, includes_app_l, ImportJobFacts.includes_join.
    apply list_elem_of_fmap. exists name. split; [done|].
    apply list_elem_of_fmap. by exists (name, value).
  - by intros ->.
Qed.

End HostingEnvironment.

Section HostingWiring.

Variables (scope : node_id) (id : string) (props : AmplifyHostingProps).
Variable t : tree.

(** X10: the logging policy of a hosting construct is attached to the role
    the app was given, a role for [amplify.amazonaws.com], and to no other
    role; where its statements name a construct, it is the app's id. *)
Theorem logging_policy_on_app_role (h : AmplifyHosting) (t' : tree) :
  AmplifyHosting_new scope id props t = Done h t' ->
  exists (p : AppProps) (rp : RoleProps) (policy : node_id) (pp : PolicyProps),
    resource_at t' (app h) = Some (AmplifyApp p) /\
    resource_at t' (role p) = Some (IamRole rp) /\
    assumedBy rp = "amplify.amazonaws.com" /\
    resource_at t' policy = Some (IamPolicy pp) /\
    AttachToRole policy (role p) ∈ t' /\
    (forall policy' role',
       AttachToRole policy' role' ∈ drop (length t) t' ->
       policy' = policy /\ role' = role p) /\
    (forall statement resource reference,
       statement ∈ statements pp -> resource ∈ resources statement ->
       reference ∈ references resource -> reference = (app h, "appId")).
Proof.
  intros (Hid & Hnew & -> & ->)%AmplifyHosting_new_inv.
  eexists _, _, ("AmplifySSRLoggingPolicy" :: sanitizeId id :: scope), _.
  split; [solve_resource_of_hosting Hnew|].
  split; [solve_resource_of_hosting Hnew|].
  split; [reflexivity|].
  split; [solve_resource_of_hosting Hnew|].
  split.
  { apply elem_of_app. right. unfold AmplifyHosting_ops, Repository_ops. simpl.
    repeat first [apply list_elem_of_here | apply list_elem_of_further]. }
  split.
  - rewrite drop_app_length. unfold AmplifyHosting_ops, Repository_ops. simpl.
    intros policy' role' Hin.
    repeat (apply elem_of_cons in Hin as [Hin|Hin]; [by simplify_eq|]).
    by apply elem_of_nil in Hin.
  - simpl. intros statement resource reference Hst Hres Href.
    repeat (apply elem_of_cons in Hst as [->|Hst];
            [simpl in Hres;
             repeat (apply elem_of_cons in Hres as [->|Hres];
                     [simpl in Href;
                      repeat (apply elem_of_cons in Href as [->|Href]; [done|]);
                      by apply elem_of_nil in Href|]);
             by apply elem_of_nil in Hres|]).
    by apply elem_of_nil in Hst.
Qed.

(** X11: the app of a hosting construct builds from the repository its
    import job pushes to: the job's [TargetRepo] is the clone URL of the
    app's source repository, the job is served by that repository's import
    provider, and the provider's handler holds the push grant on it. *)
Theorem app_builds_from_import_target (h : AmplifyHosting) (t' : tree) :
  AmplifyHosting_new scope id props t = Done h t' ->
  exists (p : AppProps) (provider : ProviderProps),
    resource_at t' (app h) = Some (AmplifyApp p) /\
    sourceCodeProvider p = repo_node (hosting_repository h) /\
    get "TargetRepo" (properties (cr_props (repoImportJob h)))
      = Some [Attr (sourceCodeProvider p) "repositoryCloneUrlGrc"] /\
    references (serviceToken (cr_props (repoImportJob h)))
      = [(provider_node (importProvider (hosting_repository h)), "serviceToken")] /\
    resource_at t' (provider_node (importProvider (hosting_repository h)))
      = Some (CrProvider provider) /\
    Grant (onEventHandler provider) "codecommit:GitPush" (sourceCodeProvider p) ∈ t'.
Proof.
  intros (Hid & Hnew & -> & ->)%AmplifyHosting_new_inv.
  eexists _, _.
  split; [solve_resource_of_hosting Hnew|].
  do 3 (split; [reflexivity|]).
  split; [solve_resource_of_hosting Hnew|].
  apply elem_of_app. right. unfold AmplifyHosting_ops, Repository_ops. simpl.
  repeat first [apply list_elem_of_here | apply list_elem_of_further].
Qed.

(** X12: the site URL given to the build of the production branch and the
    URL the construct outputs are written differently; they resolve to the
    same URL when the branch's name resolves to ['main'] and the app's
    default domain is its id under [amplifyapp.com]. *)
Theorem site_url_matches_output (h : AmplifyHosting) (t' : tree)
    (rho : frag -> string) :
  AmplifyHosting_new scope id props t = Done h t' ->
  rho (Attr (prodBranch h) "branchName") = "main" ->
  rho (Attr (app h) "defaultDomain") = rho (Attr (app h) "appId") +:+ ".amplifyapp.com" ->
  exists (options : BranchOptions) (site_url : tstr),
    resource_at t' (prodBranch h) = Some (AmplifyBranch (app h) options) /\
    get "NEXT_PUBLIC_SITE_URL" (branch_environmentVariables options) = Some site_url /\
    resource_at t' ("Url" :: hosting_node h) = Some (CfnOutput (prodBranchUrl h)) /\
    resolve rho site_url = resolve rho (prodBranchUrl h).
Proof.
  intros (Hid & Hnew & -> & ->)%AmplifyHosting_new_inv Hbranch Hdomain.
  eexists _, _.
  split; [solve_resource_of_hosting Hnew|].
  split; [reflexivity|].
  split; [solve_resource_of_hosting Hnew|].
  simpl in *. unfold resolve. simpl map.
  rewrite Hbranch, Hdomain. reflexivity.
Qed.

End HostingWiring.

Section ImportJobIds.

Variables (this : Repository) (t : tree).

(** X5: a repository takes one import job per target branch: once
    [importFromUrl] has returned for a branch, a call for a branch with the
    same id (the same name, or one that differs only by ['/'] against
    ['--']) throws, whatever its source. *)
Theorem import_same_branch_twice_throws
    (branch1 url1 src1 branch2 url2 src2 : string)
    (job : CustomResource) (t' : tree) :
  importFromUrl this branch1 url1 src1 t = Done job t' ->
  sanitizeId branch2 = sanitizeId branch1 ->
  exists msg, importFromUrl this branch2 url2 src2 t' = Thrown msg.
Proof.
  intros (_ & _ & -> & ->)%importFromUrl_inv Hsame.
  apply importFromUrl_refused. right.
  rewrite has_node_app, Hsame. simpl.
  rewrite bool_decide_eq_true_2 by done. apply orb_true_r.
Qed.

(** X7: a repository takes a second import job for a branch whose id is
    free: when [importFromUrl] has returned for one branch and the id of
    another branch is not empty, differs from the first id, was not
    registered under the repository before the first call and is not
    ['Resource'] (the id of the repository's own CloudFormation resource,
    which the library registers and the tree here does not list), the
    second call returns too; both jobs are registered, at different paths,
    they share the provider and the target repository, and each has its
    own [TargetBranch]. *)
Theorem import_two_branches
    (branch1 url1 src1 branch2 url2 src2 : string)
    (job1 : CustomResource) (t1 : tree) :
  importFromUrl this branch1 url1 src1 t = Done job1 t1 ->
  branch2 <> "" ->
  sanitizeId branch2 <> sanitizeId branch1 ->
  sanitizeId branch2 <> "Resource" ->
  has_node t (sanitizeId branch2 :: repo_node this) = false ->
  exists (job2 : CustomResource) (t2 : tree),
    importFromUrl this branch2 url2 src2 t1 = Done job2 t2 /\
    cr_node job1 <> cr_node job2 /\
    resource_at t2 (cr_node job1) = Some (CdkCustomResource (cr_props job1)) /\
    resource_at t2 (cr_node job2) = Some (CdkCustomResource (cr_props job2)) /\
    serviceToken (cr_props job1) = serviceToken (cr_props job2) /\
    get "TargetRepo" (properties (cr_props job1))
      = get "TargetRepo" (properties (cr_props job2)) /\
    get "TargetBranch" (properties (cr_props job1)) = Some [Lit branch1] /\
    get "TargetBranch" (properties (cr_props job2)) = Some [Lit branch2].
Proof.
  intros (_ & Hnew1 & -> & ->)%importFromUrl_inv Hid Hne _ Hnew2.
  eexists _, _. split.
  { apply importFromUrl_ok; [done|].
    rewrite has_node_app, Hnew2. simpl.
    by rewrite bool_decide_eq_false_2 by congruence. }
  simpl. split; [congruence|].
  split.
  { rewrite !resource_at_app, (resource_at_has_node _ _ Hnew1). simpl.
    by rewrite bool_decide_eq_true_2. }
  split.
  { rewrite !resource_at_app, (resource_at_has_node _ _ Hnew2). simpl.
    rewrite bool_decide_eq_false_2 by congruence.
    by rewrite bool_decide_eq_true_2. }
  by repeat split.
Qed.

End ImportJobIds.

(** X6: the ids of the import function and of the import provider are
    taken in every repository: an import job for a target branch named
    ['ImportFunction'] or ['ImportProvider'] cannot be created, neither
    right after the construction nor later. *)
Theorem import_reserved_id_throws (scope : node_id) (id : string)
    (props : RepositoryProps) (t t' later : tree) (repo : Repository)
    (branch url src : string) :
  Repository_new scope id props t = Done repo t' ->
  branch ∈ ["ImportFunction"; "ImportProvider"] ->
  exists msg, importFromUrl repo branch url src (t' ++ later) = Thrown msg.
Proof.
  intros (_ & _ & _ & _ & -> & ->)%Repository_new_inv Hbranch.
  apply importFromUrl_refused. right.
  rewrite !has_node_app. unfold Repository_ops. simpl.
  apply elem_of_cons in Hbranch as [->|Hbranch].
  - change (sanitizeId "ImportFunction") with "ImportFunction".
    rewrite (bool_decide_eq_true_2 ("ImportFunction" :: _ = _)) by done.
    by rewrite !orb_true_r.
  - apply elem_of_cons in Hbranch as [->|Hbranch]; [|by apply elem_of_nil in Hbranch].
    change (sanitizeId "ImportProvider") with "ImportProvider".
    rewrite (bool_decide_eq_true_2 ("ImportProvider" :: _ = _)) by done.
    by rewrite !orb_true_r.
Qed.

Section WellFormedTrees.

Lemma nodes_app (t1 t2 : tree) : nodes (t1 ++ t2) = nodes t1 ++ nodes t2.
Proof. apply omap_app. Qed.

Lemma has_node_nodes (t : tree) (n : node_id) :
  has_node t n = true <-> n ∈ nodes t.
Proof.
  unfold has_node, nodes. rewrite existsb_exists, list_elem_of_omap.
  split.
  - intros (o & Ho%list_elem_of_In & Hn). exists o. split; [done|].
    destruct o; try done. by apply bool_decide_eq_true_1 in Hn as ->.
  - intros (o & Ho%list_elem_of_In & Hn). exists o. split; [done|].
    destruct o; try done. injection Hn as ->. by apply bool_decide_eq_true_2.
Qed.

Lemma closed_scope (t : tree) (n : node_id) :
  closed t = true -> n ∈ nodes t -> scope_registered t n = true.
Proof.
  unfold closed. rewrite forallb_forall. intros Hclosed Hn.
  by apply Hclosed, list_elem_of_In.
Qed.

Variables (scope : node_id) (id : string) (props : AmplifyHostingProps).
Variable t : tree.

(** X8: a scope takes one hosting construct per id: once [new
    AmplifyHosting] has returned, constructing another one in the same
    scope under the same id (the same name, or one that differs only by
    ['/'] against ['--']) throws, whatever its props and whatever was
    constructed in between. *)
Theorem hosting_same_id_twice_throws (id2 : string) (props2 : AmplifyHostingProps)
    (h : AmplifyHosting) (t' later : tree) :
  AmplifyHosting_new scope id props t = Done h t' ->
  sanitizeId id2 = sanitizeId id ->
  exists msg, AmplifyHosting_new scope id2 props2 (t' ++ later) = Thrown msg.
Proof.
  intros (_ & _ & _ & ->)%AmplifyHosting_new_inv Hsame.
  unfold AmplifyHosting_new, bind, construct.
  case_bool_decide; [by eexists|].
  rewrite Hsame, !has_node_app.
  unfold AmplifyHosting_ops at 1. simpl has_node at 2.
  rewrite bool_decide_eq_true_2 by reflexivity.
  rewrite orb_true_r. by eexists.
Qed.

(** X9: a hosting construction keeps the tree a tree: it only adds to the
    operations already there, every construct it registers lies under the
    new construct, no path ends up registered twice, and every registered
    construct still has its scope registered. *)
Theorem hosting_keeps_tree_well_formed (h : AmplifyHosting) (t' : tree) :
  closed t = true -> unique t = true ->
  scope = [] \/ has_node t scope = true ->
  AmplifyHosting_new scope id props t = Done h t' ->
  t `prefix_of` t' /\
  (forall n, n ∈ nodes (drop (length t) t') -> hosting_node h `suffix_of` n) /\
  unique t' = true /\ closed t' = true.
Proof.
  intros Hclosed Hunique%bool_decide_eq_true_1 Hscope
         (Hid & Hnew & -> & ->)%AmplifyHosting_new_inv.
  split; [by eexists|].
  split.
  { rewrite drop_app_length. intros n Hn.
    unfold nodes, AmplifyHosting_ops, Repository_ops in Hn. simpl in Hn.
    repeat (apply elem_of_cons in Hn as [->|Hn];
            [first [by exists [] | by eexists [_] | by eexists [_; _]]|]).
    by apply elem_of_nil in Hn. }
  split.
  { apply bool_decide_eq_true_2. rewrite nodes_app. apply NoDup_app.
    split; [done|]. split.
    - intros n Hn%has_node_nodes Hn'. by rewrite (Hnew n Hn') in Hn.
    - unfold nodes, AmplifyHosting_ops, Repository_ops. simpl.
      repeat (apply NoDup_cons; split;
              [intros Hin;
               repeat (apply elem_of_cons in Hin as [Hin|Hin]; [revert Hin; node_neq|]);
               by apply elem_of_nil in Hin|]).
      apply NoDup_nil_2. }
  unfold closed. rewrite nodes_app, forallb_app. apply andb_true_iff. split.
  - apply forallb_forall. intros n Hn%list_elem_of_In.
    pose proof (closed_scope _ _ Hclosed Hn) as Hreg.
    destruct n as [|a [|b n]]; try done. simpl in *.
    by rewrite has_node_app, Hreg.
  - assert (scope_registered (t ++ AmplifyHosting_ops (sanitizeId id :: scope) props)
                             (sanitizeId id :: scope) = true) as Hthis.
    { destruct Hscope as [->|Hscope]; [done|].
      destruct scope as [|s scope']; [done|]. simpl.
      by rewrite has_node_app, Hscope. }
    unfold nodes at 1, AmplifyHosting_ops at 2, Repository_ops. simpl omap.
    cbn [forallb]. rewrite Hthis. simpl scope_registered.
    rewrite !has_node_app.
    unfold AmplifyHosting_ops, Repository_ops. simpl has_node.
    repeat match goal with
      | |- context [bool_decide (?a = ?b)] =>
          first [ rewrite (bool_decide_eq_true_2 (a = b)) by reflexivity
                | rewrite (bool_decide_eq_false_2 (a = b)) by node_neq ]
      end.
    simpl. by rewrite ?orb_true_r.
Qed.

End WellFormedTrees.

(** * The further properties at concrete inputs *)

Lemma hosting_names_witness :
  AmplifyHosting_new Examples.stack "Studio" Examples.props Examples.stack_tree
    = Done Examples.hosting Examples.hosting_tree /\
  exists p : AppProps,
    resource_at Examples.hosting_tree ["Repo"; "Studio"; "Stack"]
      = Some (CodeCommitRepository {| repositoryName := "StackStudio" |}) /\
    resource_at Examples.hosting_tree ["App"; "Studio"; "Stack"] = Some (AmplifyApp p) /\
    appName p = "StackStudio".
Proof.
  assert (AmplifyHosting_new Examples.stack "Studio" Examples.props Examples.stack_tree
          = Done Examples.hosting Examples.hosting_tree) as Hrun
    by (vm_compute; reflexivity).
  split; [exact Hrun|].
  destruct (hosting_names Examples.stack "Studio" Examples.props Examples.stack_tree
              Examples.hosting Examples.hosting_tree Hrun)
    as (name & p & Hrepo & Happ & Hname & Hpath & _).
  assert (name = "StackStudio") as -> by (rewrite Hpath; reflexivity).
  exists p. repeat split; assumption.
Defined.

Lemma repository_name_collision_witness :
  let h1 := AmplifyHosting_at ["Studio"; "WebApp"] Examples.props in
  let h2 := AmplifyHosting_at ["AppStudio"; "Web"] Examples.props in
  AmplifyHosting_new ["Web" +:+ sanitizeId "App"] "Studio" Examples.props []
    = Done h1 (AmplifyHosting_ops ["Studio"; "WebApp"] Examples.props) /\
  AmplifyHosting_new ["Web"] ("App" +:+ "Studio") Examples.props []
    = Done h2 (AmplifyHosting_ops ["AppStudio"; "Web"] Examples.props) /\
  "App" <> "" /\
  hosting_node h1 <> hosting_node h2 /\
  repositoryName (repo_props (hosting_repository h1))
    = repositoryName (repo_props (hosting_repository h2)).
Proof.
  intros h1 h2.
  assert (AmplifyHosting_new ["Web" +:+ sanitizeId "App"] "Studio" Examples.props []
          = Done h1 (AmplifyHosting_ops ["Studio"; "WebApp"] Examples.props)) as Hrun1
    by (vm_compute; reflexivity).
  assert (AmplifyHosting_new ["Web"] ("App" +:+ "Studio") Examples.props []
          = Done h2 (AmplifyHosting_ops ["AppStudio"; "Web"] Examples.props)) as Hrun2
    by (vm_compute; reflexivity).
  split; [exact Hrun1|]. split; [exact Hrun2|]. split; [discriminate|].
  exact (repository_name_collision "Web" "App" "Studio" [] Examples.props Examples.props
           [] [] _ _ h1 h2 Hrun1 Hrun2 ltac:(discriminate)).
Defined.

Lemma app_environment_of_hosting_witness :
  AmplifyHosting_new Examples.stack "Studio" Examples.props Examples.stack_tree
    = Done Examples.hosting Examples.hosting_tree /\
  NoDup (map fst (default [] (environmentVariables Examples.props))) /\
  app_environment Examples.hosting_tree (app Examples.hosting)
    !! "NEXT_PRIVATE_OUTPUT_TRACE_ROOT" = Some [Lit "../../"] /\
  app_environment Examples.hosting_tree (app Examples.hosting)
    !! "STUDIO_PG_META_URL" = Some [Lit "https://api.example.com/pg"] /\
  app_environment Examples.hosting_tree (app Examples.hosting) !! "HOME" = None.
Proof.
  assert (AmplifyHosting_new Examples.stack "Studio" Examples.props Examples.stack_tree
          = Done Examples.hosting Examples.hosting_tree) as Hrun
    by (vm_compute; reflexivity).
  assert (NoDup (map fst (default [] (environmentVariables Examples.props)))) as Hobject
    by (apply (bool_decide_unpack _); vm_compute; exact I).
  split; [exact Hrun|]. split; [exact Hobject|].
  destruct (app_environment_of_hosting Examples.stack "Studio" Examples.props
              Examples.stack_tree Examples.hosting Examples.hosting_tree Hrun Hobject)
    as (Hroot & _ & _ & _ & Hother).
  split; [exact Hroot|]. split.
  - apply (Hother "STUDIO_PG_META_URL").
    apply (bool_decide_unpack _). vm_compute. exact I.
  - apply (Hother "HOME"). apply (bool_decide_unpack _). vm_compute. exact I.
Defined.

Lemma preBuild_greps_every_variable_witness :
  AmplifyHosting_new Examples.stack "Studio" Examples.props Examples.stack_tree
    = Done Examples.hosting Examples.hosting_tree /\
  exists (p : AppProps) (command : string),
    resource_at Examples.hosting_tree (app Examples.hosting) = Some (AmplifyApp p) /\
    first_preBuild_command (buildSpec p) = Some (YStr command) /\
    includes "-e STUDIO_PG_META_URL" command = true.
Proof.
  assert (AmplifyHosting_new Examples.stack "Studio" Examples.props Examples.stack_tree
          = Done Examples.hosting Examples.hosting_tree) as Hrun
    by (vm_compute; reflexivity).
  split; [exact Hrun|].
  destruct (preBuild_greps_every_variable Examples.stack "Studio" Examples.props
              Examples.stack_tree Examples.hosting Examples.hosting_tree Hrun)
    as (p & command & Happ & Hcommand & Hgreps & _).
  exists p, command. repeat split; try assumption.
  apply (Hgreps "STUDIO_PG_META_URL" "https://api.example.com/pg").
  apply list_elem_of_here.
Defined.

Lemma logging_policy_on_app_role_witness :
  AmplifyHosting_new Examples.stack "Studio" Examples.props Examples.stack_tree
    = Done Examples.hosting Examples.hosting_tree /\
  exists (p : AppProps) (policy : node_id),
    resource_at Examples.hosting_tree (app Examples.hosting) = Some (AmplifyApp p) /\
    AttachToRole policy (role p) ∈ Examples.hosting_tree.
Proof.
  assert (AmplifyHosting_new Examples.stack "Studio" Examples.props Examples.stack_tree
          = Done Examples.hosting Examples.hosting_tree) as Hrun
    by (vm_compute; reflexivity).
  split; [exact Hrun|].
  destruct (logging_policy_on_app_role Examples.stack "Studio" Examples.props
              Examples.stack_tree Examples.hosting Examples.hosting_tree Hrun)
    as (p & rp & policy & pp & Happ & _ & _ & _ & Hattached & _).
  exists p, policy. split; assumption.
Defined.

Lemma app_builds_from_import_target_witness :
  AmplifyHosting_new Examples.stack "Studio" Examples.props Examples.stack_tree
    = Done Examples.hosting Examples.hosting_tree /\
  exists p : AppProps,
    resource_at Examples.hosting_tree (app Examples.hosting) = Some (AmplifyApp p) /\
    get "TargetRepo" (properties (cr_props (repoImportJob Examples.hosting)))
      = Some [Attr (sourceCodeProvider p) "repositoryCloneUrlGrc"].
Proof.
  assert (AmplifyHosting_new Examples.stack "Studio" Examples.props Examples.stack_tree
          = Done Examples.hosting Examples.hosting_tree) as Hrun
    by (vm_compute; reflexivity).
  split; [exact Hrun|].
  destruct (app_builds_from_import_target Examples.stack "Studio" Examples.props
              Examples.stack_tree Examples.hosting Examples.hosting_tree Hrun)
    as (p & provider & Happ & _ & Htarget & _).
  exists p. split; assumption.
Defined.

Lemma site_url_matches_output_witness :
  AmplifyHosting_new Examples.stack "Studio" Examples.props Examples.stack_tree
    = Done Examples.hosting Examples.hosting_tree /\
  Examples.deployed (Attr (prodBranch Examples.hosting) "branchName") = "main" /\
  Examples.deployed (Attr (app Examples.hosting) "defaultDomain")
    = Examples.deployed (Attr (app Examples.hosting) "appId") +:+ ".amplifyapp.com" /\
  resolve Examples.deployed (prodBranchUrl Examples.hosting)
    = "https://main.d2x5example.amplifyapp.com" /\
  exists (options : BranchOptions) (site_url : tstr),
    get "NEXT_PUBLIC_SITE_URL" (branch_environmentVariables options) = Some site_url /\
    resolve Examples.deployed site_url = resolve Examples.deployed (prodBranchUrl Examples.hosting).
Proof.
  assert (AmplifyHosting_new Examples.stack "Studio" Examples.props Examples.stack_tree
          = Done Examples.hosting Examples.hosting_tree) as Hrun
    by (vm_compute; reflexivity).
  split; [exact Hrun|]. do 3 (split; [reflexivity|]).
  destruct (site_url_matches_output Examples.stack "Studio" Examples.props
              Examples.stack_tree Examples.hosting Examples.hosting_tree
              Examples.deployed Hrun eq_refl eq_refl)
    as (options & site_url & _ & Hsite & _ & Hsame).
  exists options, site_url. split; assumption.
Defined.

Lemma import_same_branch_twice_throws_witness :
  let job := {| cr_node := ["release--1.0"; "Repo"; "Studio"; "Stack"];
                cr_props := importJobProps Examples.repository "release/1.0"
                              "https://github.com/supabase/supabase.git" "release/1.0" |} in
  importFromUrl Examples.repository "release/1.0"
    "https://github.com/supabase/supabase.git" "release/1.0" Examples.repository_tree
    = Done job (Examples.repository_tree
                  ++ [Create (cr_node job) (CdkCustomResource (cr_props job))]) /\
  sanitizeId "release--1.0" = sanitizeId "release/1.0" /\
  exists msg,
    importFromUrl Examples.repository "release--1.0"
      "https://github.com/supabase/supabase.git" "release--1.0"
      (Examples.repository_tree
         ++ [Create (cr_node job) (CdkCustomResource (cr_props job))])
      = Thrown msg.
Proof.
  intros job.
  assert (importFromUrl Examples.repository "release/1.0"
            "https://github.com/supabase/supabase.git" "release/1.0"
            Examples.repository_tree
          = Done job (Examples.repository_tree
                        ++ [Create (cr_node job) (CdkCustomResource (cr_props job))]))
    as Hfirst by (vm_compute; reflexivity).
  split; [exact Hfirst|]. split; [reflexivity|].
  exact (import_same_branch_twice_throws Examples.repository Examples.repository_tree
           "release/1.0" _ _ "release--1.0" _ _ job _ Hfirst eq_refl).
Defined.

Lemma import_two_branches_witness :
  let job := {| cr_node := ["main"; "Repo"; "Studio"; "Stack"];
                cr_props := importJobProps Examples.repository "main"
                              "https://github.com/supabase/supabase.git" "master" |} in
  importFromUrl Examples.repository "main"
    "https://github.com/supabase/supabase.git" "master" Examples.repository_tree
    = Done job (Examples.repository_tree
                  ++ [Create (cr_node job) (CdkCustomResource (cr_props job))]) /\
  "staging" <> "" /\ sanitizeId "staging" <> sanitizeId "main" /\
  sanitizeId "staging" <> "Resource" /\
  has_node Examples.repository_tree
           (sanitizeId "staging" :: repo_node Examples.repository) = false /\
  exists (job2 : CustomResource) (t2 : tree),
    importFromUrl Examples.repository "staging"
      "https://github.com/supabase/supabase.git" "next"
      (Examples.repository_tree
         ++ [Create (cr_node job) (CdkCustomResource (cr_props job))])
      = Done job2 t2 /\
    cr_node job <> cr_node job2.
Proof.
  intros job.
  assert (importFromUrl Examples.repository "main"
            "https://github.com/supabase/supabase.git" "master" Examples.repository_tree
          = Done job (Examples.repository_tree
                        ++ [Create (cr_node job) (CdkCustomResource (cr_props job))]))
    as Hfirst by (vm_compute; reflexivity).
  split; [exact Hfirst|]. split; [discriminate|]. split; [discriminate|].
  split; [discriminate|]. split; [reflexivity|].
  destruct (import_two_branches Examples.repository Examples.repository_tree
              "main" _ _ "staging" "https://github.com/supabase/supabase.git" "next"
              job _ Hfirst ltac:(discriminate) ltac:(discriminate)
              ltac:(discriminate) eq_refl)
    as (job2 & t2 & Hsecond & Hdistinct & _).
  exists job2, t2. split; assumption.
Defined.

Lemma import_reserved_id_throws_witness :
  Repository_new ["Studio"; "Stack"] "Repo" {| repositoryName := "StackStudio" |} []
    = Done Examples.repository Examples.repository_tree /\
  "ImportFunction" ∈ ["ImportFunction"; "ImportProvider"] /\
  exists msg,
    importFromUrl Examples.repository "ImportFunction"
      "https://github.com/supabase/supabase.git" "ImportFunction"
      (Examples.repository_tree ++ []) = Thrown msg.
Proof.
  assert (Repository_new ["Studio"; "Stack"] "Repo" {| repositoryName := "StackStudio" |} []
          = Done Examples.repository Examples.repository_tree) as Hrun
    by (vm_compute; reflexivity).
  split; [exact Hrun|]. split; [apply list_elem_of_here|].
  exact (import_reserved_id_throws ["Studio"; "Stack"] "Repo" _ [] _ [] _
           "ImportFunction" _ _ Hrun (list_elem_of_here _ _)).
Defined.

Lemma hosting_same_id_twice_throws_witness :
  AmplifyHosting_new Examples.stack "Studio" Examples.props Examples.stack_tree
    = Done Examples.hosting Examples.hosting_tree /\
  sanitizeId "Studio" = sanitizeId "Studio" /\
  exists msg,
    AmplifyHosting_new Examples.stack "Studio" Examples.props
      (Examples.hosting_tree ++ []) = Thrown msg.
Proof.
  assert (AmplifyHosting_new Examples.stack "Studio" Examples.props Examples.stack_tree
          = Done Examples.hosting Examples.hosting_tree) as Hrun
    by (vm_compute; reflexivity).
  split; [exact Hrun|]. split; [reflexivity|].
  exact (hosting_same_id_twice_throws Examples.stack "Studio" Examples.props
           Examples.stack_tree "Studio" Examples.props Examples.hosting
           Examples.hosting_tree [] Hrun eq_refl).
Defined.

Lemma hosting_keeps_tree_well_formed_witness :
  closed Examples.stack_tree = true /\ unique Examples.stack_tree = true /\
  has_node Examples.stack_tree Examples.stack = true /\
  AmplifyHosting_new Examples.stack "Studio" Examples.props Examples.stack_tree
    = Done Examples.hosting Examples.hosting_tree /\
  unique Examples.hosting_tree = true /\ closed Examples.hosting_tree = true.
Proof.
  assert (AmplifyHosting_new Examples.stack "Studio" Examples.props Examples.stack_tree
          = Done Examples.hosting Examples.hosting_tree) as Hrun
    by (vm_compute; reflexivity).
  split; [reflexivity|]. split; [vm_compute; reflexivity|]. split; [reflexivity|].
  split; [exact Hrun|].
  destruct (hosting_keeps_tree_well_formed Examples.stack "Studio" Examples.props
              Examples.stack_tree Examples.hosting Examples.hosting_tree
              eq_refl ltac:(vm_compute; reflexivity) (or_intror eq_refl) Hrun)
    as (_ & _ & Hunique & Hclosed).
  split; assumption.
Defined.
